(** * SRT PnL Stress Analysis: a shallow embedding of [srt_stress_analysis]

    The repository holds two versions of one script.  Version 2.0
    ([SRT PnL Stress Analysis v2.py]) simulates the first-loss tranche
    quarter by quarter; version 1.0 ([SRT PnL Stress Analysis v1.py]) does
    it year by year.  Both are embedded below, each in its own module, as
    the loops are written: the mutable locals of a scenario are an explicit
    [state] record, one loop iteration is a [step], and the [results] list
    is the list of the rows the steps append.

    Numbers.  The scripts never name a numeric type: every quantity flows
    through [+], [-], [*] and [/] only, so the functions run unchanged on
    [int], [float] or [fractions.Fraction] arguments.  The embedding uses the
    rationals [Q], that is the exact arithmetic the code performs on
    [Fraction]s and the one the formulas denote; on binary floats each
    operation is in addition rounded, which no statement below speaks about.
    Equality of amounts is [Qeq] ([==]).

    Exceptions.  Python's true division raises [ZeroDivisionError] on a zero
    divisor and list indexing raises [IndexError]; an exception leaves the
    function without a result.  This is the [result] monad below.

    The plotting calls and the [pnl_over_time] buffer that feeds them have no
    effect on the returned table and are left out. *)

From Stdlib Require Import QArith Qpower ZArith List Bool Lia Lqa.
Import ListNotations.
Open Scope Q_scope.

(** ** Python runtime pieces *)

Inductive exn : Type :=
| ZeroDivisionError
| IndexError.

Inductive result (A : Type) : Type :=
| Ok (a : A)
| Raise (e : exn).

Arguments Ok {A} a.
Arguments Raise {A} e.

Definition bind {A B : Type} (c : result A) (k : A -> result B) : result B :=
  match c with
  | Ok a => k a
  | Raise e => Raise e
  end.

Notation "x <- c ;; k" := (bind c (fun x => k))
  (at level 61, c at next level, right associativity).

(** [a / b] on numbers. *)
Definition py_div (a b : Q) : result Q :=
  if Qeq_bool b 0 then Raise ZeroDivisionError else Ok (a / b).

(** [l[i]] on a list: a negative index counts from the end. *)
Definition py_index {A : Type} (l : list A) (i : Z) : result A :=
  let n := Z.of_nat (length l) in
  let j := if (i <? 0)%Z then (i + n)%Z else i in
  if ((j <? 0)%Z || (n <=? j)%Z)%bool then Raise IndexError
  else match nth_error l (Z.to_nat j) with
       | Some x => Ok x
       | None => Raise IndexError
       end.

(** [range(lo, hi)]. *)
Definition py_range (lo hi : Z) : list Z :=
  map (fun k => (lo + Z.of_nat k)%Z) (seq 0 (Z.to_nat (hi - lo))).

(** The three values of the ["Amortisation Type"] column. *)
Inductive amortisation : Type :=
| Replenishment
| ProRata
| Sequential.

Definition amortisation_eqb (a b : amortisation) : bool :=
  match a, b with
  | Replenishment, Replenishment => true
  | ProRata, ProRata => true
  | Sequential, Sequential => true
  | _, _ => false
  end.

(** The deal terms: the scalar arguments of [srt_stress_analysis]. *)
Record deal : Type := Deal {
  tranche_size : Q;
  notional_amount : Q;
  coupon_rate : Q;
  annual_loss_rate : Q;
  cln_price : Q;
  risk_free_rates : list Q;
  amortisation_rate : Q
}.

(** ** Version 2.0: the quarterly engine *)

Module V2.

Definition maturity : Z := 8.
Definition replenishment_period : Z := 3.
Definition quarters_per_year : Z := 4.
Definition total_quarters : Z := maturity * quarters_per_year.

(** The locals a scenario carries from one quarter to the next. *)
Record state : Type := State {
  remaining_notional : Q;
  tranche_exposure : Q;
  pnl : Q;
  discounted_pnl : Q;
  compounded_cashflows : Q;
  sequential_mode : bool
}.

(** What one quarter produces: the twelve entries of the dictionary appended
    to [results], and the two locals [principal_payment] and
    [quarterly_coupon] of that iteration, which the table does not keep but
    [Quarterly_Cashflow] is made of. *)
Record period : Type := Period {
  Scenario : nat;                 (* the n of "Stress n" *)
  Year : Z;
  Quarter : Z;
  Trigger_Time : Z;
  Stress_Multiplier : Q;
  Losses : Q;
  Remaining_Notional : Q;
  Tranche_Exposure : Q;
  Quarterly_Cashflow : Q;
  Amortisation_Type : amortisation;
  PnL : Q;
  Discounted_PnL : Q;
  principal_payment : Q;
  quarterly_coupon : Q
}.

Definition qpy : Q := inject_Z quarters_per_year.

(** The outcome of the [if year <= replenishment_period: ... else: ...]
    block (lines 83-102). *)
Record waterfall_out : Type := Waterfall {
  w_amortisation_type : amortisation;
  w_principal_payment : Q;
  w_tranche_exposure : Q;
  w_remaining_notional : Q;
  w_quarterly_coupon : Q;
  w_quarterly_cashflow : Q;
  w_sequential_mode : bool
}.

Definition waterfall (d : deal) (trigger_time year : Z) (annual_losses : Q)
    (st : state) : result waterfall_out :=
  if (year <=? replenishment_period)%Z then
    let quarterly_coupon := (tranche_exposure st * coupon_rate d) / qpy in
    Ok (Waterfall Replenishment 0 (tranche_exposure st)
          (remaining_notional st) quarterly_coupon quarterly_coupon
          (sequential_mode st))
  else
    let sequential_mode' :=
      if (year =? trigger_time)%Z then true else sequential_mode st in
    if sequential_mode' then
      let tranche_exposure' := tranche_exposure st - annual_losses in
      let remaining_notional' :=
        remaining_notional st * (1 - amortisation_rate d / qpy) in
      let quarterly_coupon := (tranche_exposure' * coupon_rate d) / qpy in
      Ok (Waterfall Sequential 0 tranche_exposure' remaining_notional'
            quarterly_coupon (quarterly_coupon + 0) sequential_mode')
    else
      share <- py_div (tranche_exposure st) (remaining_notional st) ;;
      let principal_payment :=
        share * (remaining_notional st * amortisation_rate d / qpy) in
      let tranche_exposure' := tranche_exposure st - principal_payment in
      let remaining_notional' :=
        remaining_notional st * (1 - amortisation_rate d / qpy) in
      let quarterly_coupon := (tranche_exposure' * coupon_rate d) / qpy in
      Ok (Waterfall ProRata principal_payment tranche_exposure'
            remaining_notional' quarterly_coupon
            (quarterly_coupon + principal_payment) sequential_mode').

(** The body of the inner loop (lines 79-125) for scenario number [i]. *)
Definition step (d : deal) (i : nat) (stress : Q) (trigger_time : Z)
    (yq : Z * Z) (st : state) : result (state * period) :=
  let year := fst yq in
  let quarter := snd yq in
  let annual_losses :=
    (remaining_notional st * annual_loss_rate d * stress) / qpy in
  w <- waterfall d trigger_time year annual_losses st ;;
  let tranche_exposure' := w_tranche_exposure w - annual_losses in
  let pnl' := pnl st + w_quarterly_cashflow w in
  rate <- py_index (risk_free_rates d)
            (Z.min (year - 1) (Z.of_nat (length (risk_free_rates d)) - 1)) ;;
  let risk_free_rate := rate / qpy in
  let compounded_cashflows' :=
    (compounded_cashflows st + w_quarterly_cashflow w) * (1 + risk_free_rate) in
  let discounted_pnl' := compounded_cashflows' - cln_price d in
  Ok (State (w_remaining_notional w) tranche_exposure' pnl' discounted_pnl'
        compounded_cashflows' (w_sequential_mode w),
      Period (S i) year quarter trigger_time stress annual_losses
        (w_remaining_notional w) tranche_exposure' (w_quarterly_cashflow w)
        (w_amortisation_type w) pnl' discounted_pnl'
        (w_principal_payment w) (w_quarterly_coupon w)).

(** The (year, quarter) pairs in the order the two nested [for] loops visit
    them. *)
Definition periods : list (Z * Z) :=
  flat_map (fun year =>
              map (fun quarter => (year, quarter))
                  (py_range 1 (quarters_per_year + 1)))
           (py_range 1 (maturity + 1)).

(** Running the loop body over a list of periods, collecting the rows. *)
Fixpoint run_periods (d : deal) (i : nat) (stress : Q) (trigger_time : Z)
    (ps : list (Z * Z)) (st : state) : result (state * list period) :=
  match ps with
  | [] => Ok (st, [])
  | yq :: ps' =>
      sr <- step d i stress trigger_time yq st ;;
      srs <- run_periods d i stress trigger_time ps' (fst sr) ;;
      Ok (fst srs, snd sr :: snd srs)
  end.

(** The locals as lines 70-75 set them at the start of a scenario. *)
Definition init_state (d : deal) : state :=
  State (notional_amount d) (tranche_size d) (- cln_price d) (- cln_price d)
        0 false.

Definition run_scenario (d : deal) (i : nat) (stress : Q) (trigger_time : Z)
    : result (list period) :=
  srs <- run_periods d i stress trigger_time periods (init_state d) ;;
  Ok (snd srs).

(** The outer loop [for i, stress in enumerate(stress_scenarios)], from
    index [i] on. *)
Fixpoint scenarios (d : deal) (trigger_timings : list Z) (i : nat)
    (stress_scenarios : list Q) : result (list period) :=
  match stress_scenarios with
  | [] => Ok []
  | stress :: rest =>
      trigger_time <- py_index trigger_timings (Z.of_nat i) ;;
      rows <- run_scenario d i stress trigger_time ;;
      rows' <- scenarios d trigger_timings (S i) rest ;;
      Ok (rows ++ rows')
  end.

Definition srt_stress_analysis (d : deal) (stress_scenarios : list Q)
    (trigger_timings : list Z) : result (list period) :=
  scenarios d trigger_timings 0 stress_scenarios.

End V2.

(** ** Version 1.0: the yearly engine *)

Module V1.

Definition maturity : Z := 8.
Definition replenishment_period : Z := 3.

(** The locals a scenario carries from one year to the next.
    [discounted_pnl] is fed by a quotient whose divisor is a NumPy scalar
    (the result of [np.prod]): NumPy does not raise on a zero divisor but
    yields a non-finite value, which is [None] here. *)
Record state : Type := State {
  remaining_notional : Q;
  tranche_exposure : Q;
  pnl : Q;
  discounted_pnl : option Q
}.

(** The dictionary appended to [results] each year. *)
Record row : Type := Row {
  Scenario : nat;                 (* the n of "Stress n" *)
  Year : Z;
  Trigger_Time : Z;
  Stress_Multiplier : Q;
  Losses : Q;
  Remaining_Notional : Q;
  Tranche_Exposure : Q;
  Amortisation_Type : amortisation;
  Annual_Cashflow : Q;
  PnL : Q;
  Discounted_PnL : option Q
}.

(** [[(1 + risk_free_rates[y-1]) for y in ys]]. *)
Fixpoint growth_factors (rates : list Q) (ys : list Z) : result (list Q) :=
  match ys with
  | [] => Ok []
  | y :: ys' =>
      r <- py_index rates (y - 1) ;;
      fs <- growth_factors rates ys' ;;
      Ok ((1 + r) :: fs)
  end.

(** [np.prod]. *)
Definition np_prod (l : list Q) : Q := fold_left Qmult l 1.

(** [a / b] with a NumPy scalar [b]. *)
Definition np_div (a b : Q) : option Q :=
  if Qeq_bool b 0 then None else Some (a / b).

Definition option_add (a b : option Q) : option Q :=
  match a, b with
  | Some x, Some y => Some (x + y)
  | _, _ => None
  end.

(** Lines 78-88: the regime of a year past replenishment is derived from
    [year == trigger_time] alone. *)
Definition regime_of (trigger_time year : Z) : amortisation :=
  if (year =? trigger_time)%Z then Sequential else ProRata.

(** The body of the year loop (lines 76-112) for scenario number [i]. *)
Definition step (d : deal) (i : nat) (stress : Q) (trigger_time : Z)
    (year : Z) (st : state) : result (state * row) :=
  let annual_losses := remaining_notional st * annual_loss_rate d * stress in
  let amortisation_type := regime_of trigger_time year in
  let tr :=
    if (replenishment_period <? year)%Z then
      match amortisation_type with
      | ProRata =>
          (tranche_exposure st,
           remaining_notional st * (1 - amortisation_rate d))
      | _ =>
          (tranche_exposure st - annual_losses,
           remaining_notional st * (1 - amortisation_rate d))
      end
    else (tranche_exposure st, remaining_notional st) in
  let tranche_exposure' := fst tr - annual_losses in
  let remaining_notional' := snd tr in
  let annual_cashflow := tranche_exposure' * coupon_rate d in
  let pnl' := pnl st + annual_cashflow in
  fs <- growth_factors (risk_free_rates d) (py_range 1 (year + 1)) ;;
  let discount_factor := np_prod fs in
  let discounted_pnl' :=
    option_add (discounted_pnl st) (np_div annual_cashflow discount_factor) in
  Ok (State remaining_notional' tranche_exposure' pnl' discounted_pnl',
      Row (S i) year trigger_time stress annual_losses remaining_notional'
        tranche_exposure'
        (if (replenishment_period <? year)%Z then amortisation_type
         else Replenishment)
        annual_cashflow pnl' discounted_pnl').

Definition years : list Z := py_range 1 (maturity + 1).

Fixpoint run_years (d : deal) (i : nat) (stress : Q) (trigger_time : Z)
    (ys : list Z) (st : state) : result (state * list row) :=
  match ys with
  | [] => Ok (st, [])
  | y :: ys' =>
      sr <- step d i stress trigger_time y st ;;
      srs <- run_years d i stress trigger_time ys' (fst sr) ;;
      Ok (fst srs, snd sr :: snd srs)
  end.

Definition init_state (d : deal) : state :=
  State (notional_amount d) (tranche_size d) (- cln_price d)
        (Some (- cln_price d)).

Definition run_scenario (d : deal) (i : nat) (stress : Q) (trigger_time : Z)
    : result (list row) :=
  srs <- run_years d i stress trigger_time years (init_state d) ;;
  Ok (snd srs).

Fixpoint scenarios (d : deal) (trigger_timings : list Z) (i : nat)
    (stress_scenarios : list Q) : result (list row) :=
  match stress_scenarios with
  | [] => Ok []
  | stress :: rest =>
      trigger_time <- py_index trigger_timings (Z.of_nat i) ;;
      rows <- run_scenario d i stress trigger_time ;;
      rows' <- scenarios d trigger_timings (S i) rest ;;
      Ok (rows ++ rows')
  end.

Definition srt_stress_analysis (d : deal) (stress_scenarios : list Q)
    (trigger_timings : list Z) : result (list row) :=
  scenarios d trigger_timings 0 stress_scenarios.

End V1.

(** ** The example calls at the end of the two scripts *)

Definition example_deal_v2 : deal :=
  Deal 50000000 500000000 0.11 0.0006 45000000 (repeat 0.01 8) 0.33.

Definition example_deal_v1 : deal :=
  Deal 50000000 500000000 0.11 0.0004 35000000 (repeat 0.01 8) 0.33.

Definition example_stress_scenarios : list Q := [1; 1.5; 2; 2.5].
Definition example_trigger_timings : list Z := [4; 5; 6; 7]%Z.

(** The regimes of a table, row by row. *)
Definition regimes_v2 (rows : list V2.period) : list amortisation :=
  map V2.Amortisation_Type rows.

Definition regimes_v1 (rows : list V1.row) : list amortisation :=
  map V1.Amortisation_Type rows.

(** ** Closed forms and auxiliary notions used by the statements *)

(** How many of the listed periods lie past the replenishment years, that is
    how many times the quarterly amortisation has been applied. *)
Definition amortised (ps : list (Z * Z)) : nat :=
  length (filter (fun yq => negb (fst yq <=? V2.replenishment_period)%Z) ps).

(** The remaining notional after [n] completed quarters of a version 2.0
    scenario, as a closed form: untouched for the twelve replenishment
    quarters, then scaled once per quarter. *)
Definition notional_closed_form (d : deal) (n : nat) : Q :=
  notional_amount d
  * (1 - amortisation_rate d / V2.qpy) ^ Z.of_nat (n - 12).

(** Years never decrease along a list of periods. *)
Fixpoint years_ascending (ps : list (Z * Z)) : bool :=
  match ps with
  | [] => true
  | yq :: ps' =>
      forallb (fun yq' => (fst yq <=? fst yq')%Z) ps' && years_ascending ps'
  end.

(** The regime column as the trigger year and the latch alone determine
    it, whatever the amounts are. *)
Fixpoint regime_trace (trigger_time : Z) (sequential_mode : bool)
    (ps : list (Z * Z)) : list amortisation :=
  match ps with
  | [] => []
  | yq :: ps' =>
      if (fst yq <=? V2.replenishment_period)%Z then
        Replenishment :: regime_trace trigger_time sequential_mode ps'
      else if (if (fst yq =? trigger_time)%Z then true else sequential_mode)
      then Sequential :: regime_trace trigger_time true ps'
      else ProRata :: regime_trace trigger_time false ps'
  end.

(** ** Concrete inputs the statements are instantiated at *)

(** A scenario state with the Sequential latch set. *)
Definition sequential_state : V2.state :=
  V2.State 400 40 (-45) (-45) 0 true.

(** A scenario state before the trigger, past replenishment. *)
Definition pro_rata_state : V2.state :=
  V2.State 400 40 (-45) (-45) 0 false.

(** A scenario state whose remaining notional has run out. *)
Definition exhausted_state : V2.state :=
  V2.State 0 50000000 (-45000000) (-45000000) 0 false.

(** The example deal with the portfolio amortising in full each quarter
    ([amortisation_rate = 4], that is 1 - 4/4 = 0). *)
Definition full_amortisation_deal : deal :=
  Deal 50000000 500000000 0.11 0.0006 45000000 (repeat 0.01 8) 4.

(** The example deal with a shorter rate curve. *)
Definition short_curve_deal : deal :=
  Deal 50000000 500000000 0.11 0.0006 45000000 [0.01; 0.02] 0.33.

(** The example deal without a rate curve. *)
Definition no_curve_deal : deal :=
  Deal 50000000 500000000 0.11 0.0006 45000000 [] 0.33.

(** A small deal in round numbers. *)
Definition small_deal : deal :=
  Deal 50 500 (1 # 10) (1 # 100) 45 [1 # 100] (1 # 3).

(** ** Version 2.0: the buffer behind the plot *)

(** Lines 62-66 and 127-129 of version 2.0 keep, for the chart drawn before
    the function returns, one list of 32 values per stress multiplier:
    [pnl_over_time = {stress: [0] * total_quarters for stress in
    stress_scenarios}], written by
    [pnl_over_time[stress][quarter_index] = pnl] in the quarters of the
    scenarios whose trigger year is [base_trigger_time].  The writes use
    nothing but what the quarter's row records, so the buffer is the fold of
    the writes over the rows of the table.  A dictionary is the list of its
    items in insertion order, keys compared as numbers; [None] stands for a
    [KeyError] or [IndexError] of the subscripts. *)
Module Plot.

Definition base_trigger_time : Z := 4.

Definition quarter_index (year quarter : Z) : Z :=
  ((year - 1) * V2.quarters_per_year + (quarter - 1))%Z.

Definition dict : Type := list (Q * list Q).

(** [m[k]]. *)
Fixpoint dict_get (k : Q) (m : dict) : option (list Q) :=
  match m with
  | [] => None
  | (k', v) :: m' => if Qeq_bool k' k then Some v else dict_get k m'
  end.

(** [m[k] = v]: an existing key keeps its place. *)
Fixpoint dict_set (k : Q) (v : list Q) (m : dict) : dict :=
  match m with
  | [] => [(k, v)]
  | (k', v') :: m' =>
      if Qeq_bool k' k then (k', v) :: m' else (k', v') :: dict_set k v m'
  end.

(** [[0] * total_quarters]. *)
Definition zeros : list Q := repeat 0 (Z.to_nat V2.total_quarters).

Definition init_pnl_over_time (stress_scenarios : list Q) : dict :=
  fold_left (fun m stress => dict_set stress zeros m) stress_scenarios [].

(** [l[idx] = x]. *)
Definition py_setitem (l : list Q) (idx : Z) (x : Q) : option (list Q) :=
  let n := Z.of_nat (length l) in
  let j := if (idx <? 0)%Z then (idx + n)%Z else idx in
  if ((j <? 0)%Z || (n <=? j)%Z)%bool then None
  else Some (firstn (Z.to_nat j) l ++ x :: skipn (S (Z.to_nat j)) l).

(** Lines 128-129 for the quarter that produced row [r]. *)
Definition store_row (m : dict) (r : V2.period) : option dict :=
  if (V2.Trigger_Time r =? base_trigger_time)%Z then
    match dict_get (V2.Stress_Multiplier r) m with
    | None => None
    | Some series =>
        match py_setitem series
                (quarter_index (V2.Year r) (V2.Quarter r)) (V2.PnL r) with
        | None => None
        | Some series' => Some (dict_set (V2.Stress_Multiplier r) series' m)
        end
    end
  else Some m.

Fixpoint store_rows (m : dict) (rows : list V2.period) : option dict :=
  match rows with
  | [] => Some m
  | r :: rows' =>
      match store_row m r with
      | None => None
      | Some m' => store_rows m' rows'
      end
  end.

(** The buffer as the plotting loop of lines 131-134 finds it. *)
Definition pnl_over_time (d : deal) (stress_scenarios : list Q)
    (trigger_timings : list Z) : result (option dict) :=
  rows <- V2.srt_stress_analysis d stress_scenarios trigger_timings ;;
  Ok (store_rows (init_pnl_over_time stress_scenarios) rows).

End Plot.

(** The series the chart shows for multiplier [k] after the listed
    scenarios (multiplier, trigger year, table), starting from [cur]: the
    PnL column of the last of them that has this multiplier and trigger
    year 4. *)
Fixpoint plotted_series (k : Q) (scenarios : list (Q * Z * list V2.period))
    (cur : list Q) : list Q :=
  match scenarios with
  | [] => cur
  | (stress, trigger_time, table) :: rest =>
      plotted_series k rest
        (if ((trigger_time =? Plot.base_trigger_time)%Z
             && Qeq_bool stress k)%bool
         then map V2.PnL table else cur)
  end.

(** ** Notions used by the further properties *)

(** The sum of a list of amounts. *)
Definition Qsum (l : list Q) : Q := fold_right Qplus 0 l.

(** The cash flows of the first [n] rows of a table. *)
Definition cashflows_upto (n : nat) (rows : list V2.period) : list Q :=
  map V2.Quarterly_Cashflow (firstn n rows).

(** The quarters of the replenishment years and those after them, in loop
    order. *)
Definition replenishment_periods : list (Z * Z) := firstn 12 V2.periods.
Definition amortising_periods : list (Z * Z) := skipn 12 V2.periods.


(** The annual cash flows and the losses of the first [n] rows of a
    version 1.0 table, and the losses of its Sequential rows. *)
Definition annual_cashflows_upto (n : nat) (rows : list V1.row) : list Q :=
  map V1.Annual_Cashflow (firstn n rows).

Definition losses_upto (n : nat) (rows : list V1.row) : list Q :=
  map V1.Losses (firstn n rows).

Definition sequential_losses_upto (n : nat) (rows : list V1.row) : list Q :=
  map V1.Losses
    (filter (fun r => amortisation_eqb (V1.Amortisation_Type r) Sequential)
       (firstn n rows)).

(** The example deal of version 1.0 on curves of other lengths and
    rates. *)
Definition v1_short_curve_deal : deal :=
  Deal 50000000 500000000 0.11 0.0004 35000000 (repeat 0.01 5) 0.33.

Definition v1_zero_rate_deal : deal :=
  Deal 50000000 500000000 0.11 0.0004 35000000 (repeat 0 8) 0.33.

Definition v1_total_loss_rate_deal : deal :=
  Deal 50000000 500000000 0.11 0.0004 35000000
    [0.01; 0.01; -1; 0.01; 0.01; 0.01; 0.01; 0.01] 0.33.

(** * Properties *)

(** Dividing by [quarters_per_year] is multiplying by a quarter, which is
    the form linear arithmetic understands. *)
Ltac quarter_arith :=
  unfold Qdiv in *; change (/ V2.qpy) with (1 # 4) in *.

(** ** The error monad and the runtime pieces *)

Lemma bind_Ok_inv {A B : Type} (c : result A) (k : A -> result B) (b : B) :
  bind c k = Ok b -> exists a, c = Ok a /\ k a = Ok b.
Proof.
  destruct c as [a|e]; simpl; intro H.
  - exists a; split; [reflexivity | exact H].
  - discriminate H.
Qed.

Lemma bind_Ok {A B : Type} (a : A) (k : A -> result B) :
  bind (Ok a) k = k a.
Proof. reflexivity. Qed.

Lemma bind_Raise {A B : Type} (e : exn) (k : A -> result B) :
  bind (Raise e) k = Raise e.
Proof. reflexivity. Qed.

Lemma py_div_Ok_inv (a b q : Q) :
  py_div a b = Ok q -> ~ b == 0 /\ q = a / b.
Proof.
  unfold py_div. destruct (Qeq_bool b 0) eqn:E; intro H; [discriminate|].
  split.
  - intro Hb. apply Qeq_bool_iff in Hb. congruence.
  - congruence.
Qed.

Lemma py_div_zero (a b : Q) : b == 0 -> py_div a b = Raise ZeroDivisionError.
Proof.
  intro H. unfold py_div. apply Qeq_bool_iff in H. now rewrite H.
Qed.

Lemma py_div_nonzero (a b : Q) : ~ b == 0 -> py_div a b = Ok (a / b).
Proof.
  intro H. unfold py_div. destruct (Qeq_bool b 0) eqn:E; [|reflexivity].
  apply Qeq_bool_iff in E. contradiction.
Qed.

Lemma py_index_nil {A : Type} (i : Z) : py_index (@nil A) i = Raise IndexError.
Proof.
  unfold py_index; cbv zeta. simpl length. change (Z.of_nat 0) with 0%Z.
  destruct (i <? 0)%Z eqn:E.
  - apply Z.ltb_lt in E.
    assert (E1 : (i + 0 <? 0)%Z = true) by (apply Z.ltb_lt; lia).
    now rewrite E1.
  - apply Z.ltb_ge in E.
    assert (E1 : (0 <=? i)%Z = true) by (apply Z.leb_le; lia).
    cbv iota. rewrite E1. now rewrite orb_true_r.
Qed.

Lemma py_index_in_range {A : Type} (l : list A) (i : Z) :
  (0 <= i < Z.of_nat (length l))%Z ->
  exists x, py_index l i = Ok x /\ nth_error l (Z.to_nat i) = Some x.
Proof.
  intros [H0 H1]. unfold py_index; cbv zeta.
  assert (E0 : (i <? 0)%Z = false) by (apply Z.ltb_ge; lia).
  assert (E1 : (Z.of_nat (length l) <=? i)%Z = false) by (apply Z.leb_gt; lia).
  rewrite E0; cbv iota; rewrite E0, E1. simpl.
  destruct (nth_error l (Z.to_nat i)) as [x|] eqn:E.
  - exists x; split; reflexivity.
  - apply nth_error_None in E. lia.
Qed.

Lemma py_index_Ok_inv {A : Type} (l : list A) (i : Z) (x : A) :
  py_index l i = Ok x ->
  l <> [] /\
  ((0 <= i)%Z -> nth_error l (Z.to_nat i) = Some x).
Proof.
  intro H. split.
  - intro Hl. subst l. rewrite py_index_nil in H. discriminate.
  - intro Hi. unfold py_index in H; cbv zeta in H.
    assert (E0 : (i <? 0)%Z = false) by (apply Z.ltb_ge; lia).
    rewrite E0 in H; cbv iota in H; rewrite E0 in H. simpl in H.
    destruct (Z.of_nat (length l) <=? i)%Z; [discriminate|].
    destruct (nth_error l (Z.to_nat i)); congruence.
Qed.

(** The rate lookup of version 2.0 succeeds on every non-empty list from
    year 1 on. *)
Lemma rate_lookup_total (rates : list Q) (year : Z) :
  rates <> [] -> (1 <= year)%Z ->
  exists rate,
    py_index rates (Z.min (year - 1) (Z.of_nat (length rates) - 1)) = Ok rate.
Proof.
  intros Hne Hy.
  destruct (py_index_in_range rates
              (Z.min (year - 1) (Z.of_nat (length rates) - 1))) as [x [Hx _]].
  - destruct rates; [congruence|]. simpl length. lia.
  - exists x. exact Hx.
Qed.

(** ** Version 2.0: what one quarter does *)

Section V2_step.

Variable d : deal.
Variable i : nat.
Variable stress : Q.
Variable trigger_time : Z.

(** The losses line 80 computes from the state a quarter starts in. *)
Local Abbreviation losses_at st :=
  ((V2.remaining_notional st * annual_loss_rate d * stress) / V2.qpy).

(** The principal line 93 pays in a pro-rata quarter. *)
Local Abbreviation principal_at st :=
  (V2.tranche_exposure st / V2.remaining_notional st
   * (V2.remaining_notional st * amortisation_rate d / V2.qpy)).

Lemma step_Ok_inv (yq : Z * Z) (st st' : V2.state) (r : V2.period) :
  V2.step d i stress trigger_time yq st = Ok (st', r) ->
  exists w rate,
    V2.waterfall d trigger_time (fst yq) (losses_at st) st = Ok w /\
    py_index (risk_free_rates d)
      (Z.min (fst yq - 1) (Z.of_nat (length (risk_free_rates d)) - 1))
      = Ok rate /\
    st' = V2.State (V2.w_remaining_notional w)
            (V2.w_tranche_exposure w - losses_at st)
            (V2.pnl st + V2.w_quarterly_cashflow w)
            ((V2.compounded_cashflows st + V2.w_quarterly_cashflow w)
             * (1 + rate / V2.qpy) - cln_price d)
            ((V2.compounded_cashflows st + V2.w_quarterly_cashflow w)
             * (1 + rate / V2.qpy))
            (V2.w_sequential_mode w) /\
    r = V2.Period (S i) (fst yq) (snd yq) trigger_time stress (losses_at st)
          (V2.w_remaining_notional w)
          (V2.w_tranche_exposure w - losses_at st)
          (V2.w_quarterly_cashflow w) (V2.w_amortisation_type w)
          (V2.pnl st + V2.w_quarterly_cashflow w)
          ((V2.compounded_cashflows st + V2.w_quarterly_cashflow w)
           * (1 + rate / V2.qpy) - cln_price d)
          (V2.w_principal_payment w) (V2.w_quarterly_coupon w).
Proof.
  unfold V2.step; cbv zeta. intro H.
  apply bind_Ok_inv in H as [w [Hw H]].
  apply bind_Ok_inv in H as [rate [Hrate H]].
  inversion H; subst; clear H.
  exists w, rate. repeat split; assumption.
Qed.

(** The three ways through lines 83-102. *)
Lemma waterfall_cases (year : Z) (al : Q) (st : V2.state)
    (w : V2.waterfall_out) :
  V2.waterfall d trigger_time year al st = Ok w ->
  ((year <= V2.replenishment_period)%Z /\
   w = V2.Waterfall Replenishment 0 (V2.tranche_exposure st)
         (V2.remaining_notional st)
         (V2.tranche_exposure st * coupon_rate d / V2.qpy)
         (V2.tranche_exposure st * coupon_rate d / V2.qpy)
         (V2.sequential_mode st))
  \/
  ((V2.replenishment_period < year)%Z /\
   (year = trigger_time \/ V2.sequential_mode st = true) /\
   w = V2.Waterfall Sequential 0 (V2.tranche_exposure st - al)
         (V2.remaining_notional st * (1 - amortisation_rate d / V2.qpy))
         ((V2.tranche_exposure st - al) * coupon_rate d / V2.qpy)
         ((V2.tranche_exposure st - al) * coupon_rate d / V2.qpy + 0)
         true)
  \/
  ((V2.replenishment_period < year)%Z /\
   year <> trigger_time /\ V2.sequential_mode st = false /\
   ~ V2.remaining_notional st == 0 /\
   w = V2.Waterfall ProRata (principal_at st)
         (V2.tranche_exposure st - principal_at st)
         (V2.remaining_notional st * (1 - amortisation_rate d / V2.qpy))
         ((V2.tranche_exposure st - principal_at st) * coupon_rate d / V2.qpy)
         ((V2.tranche_exposure st - principal_at st) * coupon_rate d / V2.qpy
          + principal_at st)
         false).
Proof.
  unfold V2.waterfall; cbv zeta.
  destruct (year <=? V2.replenishment_period)%Z eqn:Ey.
  - apply Z.leb_le in Ey. intro H. left. split; [exact Ey | congruence].
  - apply Z.leb_gt in Ey.
    destruct (year =? trigger_time)%Z eqn:Et.
    + apply Z.eqb_eq in Et. intro H. right; left.
      split; [exact Ey | split; [left; exact Et | congruence]].
    + apply Z.eqb_neq in Et.
      destruct (V2.sequential_mode st) eqn:Es.
      * intro H. right; left.
        split; [exact Ey | split; [right; reflexivity | congruence]].
      * intro H. apply bind_Ok_inv in H as [share [Hs H]].
        apply py_div_Ok_inv in Hs as [Hnz Hs]. subst share.
        right; right. repeat split; try assumption. congruence.
Qed.

Lemma run_periods_cons_inv (yq : Z * Z) (ps : list (Z * Z))
    (st stf : V2.state) (rows : list V2.period) :
  V2.run_periods d i stress trigger_time (yq :: ps) st = Ok (stf, rows) ->
  exists s1 r rs,
    V2.step d i stress trigger_time yq st = Ok (s1, r) /\
    V2.run_periods d i stress trigger_time ps s1 = Ok (stf, rs) /\
    rows = r :: rs.
Proof.
  simpl. intro H.
  apply bind_Ok_inv in H as [[s1 r] [H1 H]].
  apply bind_Ok_inv in H as [[s2 rs] [H2 H]].
  simpl in *. inversion H; subst.
  exists s1, r, rs. repeat split; assumption.
Qed.

Lemma run_periods_length (ps : list (Z * Z)) :
  forall (st stf : V2.state) (rows : list V2.period),
    V2.run_periods d i stress trigger_time ps st = Ok (stf, rows) ->
    length rows = length ps.
Proof.
  induction ps as [|yq ps IH]; intros st stf rows H.
  - simpl in H. inversion H. reflexivity.
  - apply run_periods_cons_inv in H as [s1 [r [rs [_ [H2 ->]]]]].
    simpl. f_equal. eapply IH; eassumption.
Qed.

(** The fields a row copies from the state its quarter ends in. *)
Lemma step_row_state (yq : Z * Z) (st st' : V2.state) (r : V2.period) :
  V2.step d i stress trigger_time yq st = Ok (st', r) ->
  V2.Remaining_Notional r = V2.remaining_notional st' /\
  V2.Tranche_Exposure r = V2.tranche_exposure st' /\
  V2.PnL r = V2.pnl st' /\
  V2.Discounted_PnL r = V2.discounted_pnl st' /\
  V2.Year r = fst yq /\ V2.Quarter r = snd yq /\
  V2.Losses r = losses_at st.
Proof.
  intro H. apply step_Ok_inv in H as [w [rate [_ [_ [-> ->]]]]].
  simpl. repeat split; reflexivity.
Qed.

(** *** The regime latch *)

Lemma step_regime (yq : Z * Z) (st st' : V2.state) (r : V2.period) :
  V2.step d i stress trigger_time yq st = Ok (st', r) ->
  ((fst yq <= V2.replenishment_period)%Z /\
   V2.Amortisation_Type r = Replenishment /\
   V2.sequential_mode st' = V2.sequential_mode st)
  \/
  ((V2.replenishment_period < fst yq)%Z /\
   (fst yq = trigger_time \/ V2.sequential_mode st = true) /\
   V2.Amortisation_Type r = Sequential /\ V2.sequential_mode st' = true)
  \/
  ((V2.replenishment_period < fst yq)%Z /\
   fst yq <> trigger_time /\ V2.sequential_mode st = false /\
   V2.Amortisation_Type r = ProRata /\ V2.sequential_mode st' = false).
Proof.
  intro H. apply step_Ok_inv in H as [w [rate [Hw [_ [-> ->]]]]].
  apply waterfall_cases in Hw
    as [[Hy ->] | [[Hy [Hc ->]] | [Hy [Hn [Hs [_ ->]]]]]]; simpl.
  - left. repeat split; [exact Hy].
  - right; left. repeat split; assumption.
  - right; right. repeat split; assumption.
Qed.

Lemma step_latch (yq : Z * Z) (st st' : V2.state) (r : V2.period) :
  V2.step d i stress trigger_time yq st = Ok (st', r) ->
  V2.sequential_mode st = true -> V2.sequential_mode st' = true.
Proof.
  intros H Hs.
  apply step_regime in H
    as [[_ [_ He]] | [[_ [_ [_ He]]] | [_ [_ [Hf _]]]]]; congruence.
Qed.

(** With the latch set, every period past replenishment is Sequential. *)
Lemma latched_run_is_sequential (ps : list (Z * Z)) :
  forall (st stf : V2.state) (rows : list V2.period),
    V2.sequential_mode st = true ->
    Forall (fun yq => (V2.replenishment_period < fst yq)%Z) ps ->
    V2.run_periods d i stress trigger_time ps st = Ok (stf, rows) ->
    Forall (fun r => V2.Amortisation_Type r = Sequential) rows.
Proof.
  induction ps as [|yq ps IH]; intros st stf rows Hs Hy H.
  - simpl in H. inversion H. constructor.
  - apply run_periods_cons_inv in H as [s1 [r [rs [H1 [H2 ->]]]]].
    inversion Hy as [|? ? Hy1 Hy2]; subst.
    pose proof (step_latch _ _ _ _ H1 Hs) as Hs1.
    constructor.
    + apply step_regime in H1
        as [[Hc _] | [[_ [_ [Ht _]]] | [_ [_ [Hf _]]]]];
        [lia | exact Ht | congruence].
    + eapply IH; eassumption.
Qed.

Lemma years_ascending_cons (yq : Z * Z) (ps : list (Z * Z)) :
  years_ascending (yq :: ps) = true ->
  Forall (fun yq' => (fst yq <= fst yq')%Z) ps /\ years_ascending ps = true.
Proof.
  simpl. intro H. apply andb_true_iff in H as [H1 H2]. split; [|exact H2].
  rewrite forallb_forall in H1. apply Forall_forall. intros x Hx.
  apply Z.leb_le. now apply H1.
Qed.

(** No reversion: over periods whose years never decrease, every row after
    a Sequential row is Sequential. *)
Lemma run_periods_sticky (ps : list (Z * Z)) :
  forall (st stf : V2.state) (rows : list V2.period) (n m : nat)
         (r r' : V2.period),
    years_ascending ps = true ->
    V2.run_periods d i stress trigger_time ps st = Ok (stf, rows) ->
    (n < m)%nat ->
    nth_error rows n = Some r -> V2.Amortisation_Type r = Sequential ->
    nth_error rows m = Some r' -> V2.Amortisation_Type r' = Sequential.
Proof.
  induction ps as [|yq ps IH]; intros st stf rows n m r r' Ha H Hnm Hn Hr Hm.
  - simpl in H. inversion H; subst. destruct n; discriminate.
  - apply run_periods_cons_inv in H as [s1 [r0 [rs [H1 [H2 ->]]]]].
    apply years_ascending_cons in Ha as [Hle Ha].
    destruct m as [|m]; [lia|]. simpl in Hm.
    destruct n as [|n].
    + simpl in Hn. inversion Hn; subst r0.
      apply step_regime in H1
        as [[_ [Hc _]] | [[Hy [_ [_ Hs1]]] | [_ [_ [_ [Hc _]]]]]];
        [congruence | | congruence].
      assert (Hall : Forall (fun r => V2.Amortisation_Type r = Sequential) rs).
      { eapply latched_run_is_sequential; [exact Hs1 | | exact H2].
        eapply Forall_impl; [|exact Hle]. simpl. intros a Ha'. lia. }
      rewrite Forall_forall in Hall. apply Hall.
      eapply nth_error_In; exact Hm.
    + simpl in Hn. eapply (IH s1 stf rs n m); try eassumption. lia.
Qed.

End V2_step.

(** ** Version 2.0: when a run returns *)

Section V2_returns.

Variable d : deal.
Variable i : nat.
Variable stress : Q.
Variable trigger_time : Z.

(** The remaining notional is scaled in the same way on both branches past
    replenishment, and never by the losses. *)
Lemma step_remaining_notional (yq : Z * Z) (st st' : V2.state)
    (r : V2.period) :
  V2.step d i stress trigger_time yq st = Ok (st', r) ->
  V2.remaining_notional st' =
    if (fst yq <=? V2.replenishment_period)%Z then V2.remaining_notional st
    else V2.remaining_notional st * (1 - amortisation_rate d / V2.qpy).
Proof.
  intro H. apply step_Ok_inv in H as [w [rate [Hw [_ [-> _]]]]].
  apply waterfall_cases in Hw
    as [[Hy ->] | [[Hy [_ ->]] | [Hy [_ [_ [_ ->]]]]]]; simpl.
  - apply Z.leb_le in Hy. now rewrite Hy.
  - apply Z.leb_gt in Hy. now rewrite Hy.
  - apply Z.leb_gt in Hy. now rewrite Hy.
Qed.

Lemma scale_nonzero (x : Q) :
  ~ amortisation_rate d == 4 -> ~ x == 0 ->
  ~ x * (1 - amortisation_rate d / V2.qpy) == 0.
Proof.
  intros Ha Hx H. apply Qmult_integral in H as [H | H]; [contradiction|].
  apply Ha. quarter_arith. lra.
Qed.

Lemma step_keeps_notional_nonzero (yq : Z * Z) (st st' : V2.state)
    (r : V2.period) :
  ~ amortisation_rate d == 4 ->
  ~ V2.remaining_notional st == 0 ->
  V2.step d i stress trigger_time yq st = Ok (st', r) ->
  ~ V2.remaining_notional st' == 0.
Proof.
  intros Ha Hx H. rewrite (step_remaining_notional _ _ _ _ H).
  destruct (fst yq <=? V2.replenishment_period)%Z; [exact Hx|].
  now apply scale_nonzero.
Qed.

Lemma waterfall_total (year : Z) (al : Q) (st : V2.state) :
  ~ V2.remaining_notional st == 0 ->
  exists w, V2.waterfall d trigger_time year al st = Ok w.
Proof.
  intro Hx. unfold V2.waterfall; cbv zeta.
  destruct (year <=? V2.replenishment_period)%Z; [eexists; reflexivity|].
  destruct (if (year =? trigger_time)%Z then true else V2.sequential_mode st);
    [eexists; reflexivity|].
  rewrite (py_div_nonzero _ _ Hx). simpl. eexists; reflexivity.
Qed.

Lemma step_total (yq : Z * Z) (st : V2.state) :
  risk_free_rates d <> [] -> (1 <= fst yq)%Z ->
  ~ V2.remaining_notional st == 0 ->
  exists st' r, V2.step d i stress trigger_time yq st = Ok (st', r).
Proof.
  intros Hr Hy Hx. unfold V2.step; cbv zeta.
  destruct (waterfall_total (fst yq)
              ((V2.remaining_notional st * annual_loss_rate d * stress)
               / V2.qpy) st Hx) as [w Hw].
  rewrite Hw. simpl.
  destruct (rate_lookup_total (risk_free_rates d) (fst yq) Hr Hy)
    as [rate Hrate].
  rewrite Hrate. simpl. eexists; eexists; reflexivity.
Qed.

Lemma run_periods_total (ps : list (Z * Z)) :
  risk_free_rates d <> [] ->
  ~ amortisation_rate d == 4 ->
  Forall (fun yq => (1 <= fst yq)%Z) ps ->
  forall st : V2.state,
    ~ V2.remaining_notional st == 0 ->
    exists stf rows,
      V2.run_periods d i stress trigger_time ps st = Ok (stf, rows).
Proof.
  intros Hr Ha. induction ps as [|yq ps IH]; intros Hy st Hx.
  - simpl. eexists; eexists; reflexivity.
  - inversion Hy as [|? ? Hy1 Hy2]; subst.
    destruct (step_total yq st Hr Hy1 Hx) as [s1 [r H1]].
    pose proof (step_keeps_notional_nonzero _ _ _ _ Ha Hx H1) as Hx1.
    destruct (IH Hy2 s1 Hx1) as [stf [rows H2]].
    simpl. rewrite H1. simpl. rewrite H2. simpl.
    eexists; eexists; reflexivity.
Qed.

Lemma periods_years_positive :
  Forall (fun yq : Z * Z => (1 <= fst yq)%Z) V2.periods.
Proof.
  apply Forall_forall. intros yq Hin.
  assert (Hb : forallb (fun yq : Z * Z => (1 <=? fst yq)%Z) V2.periods = true)
    by reflexivity.
  rewrite forallb_forall in Hb. apply Z.leb_le. now apply Hb.
Qed.

(** A scenario over a non-empty rate list, a non-zero notional and an
    amortisation rate other than 4 returns its 32 rows, whatever the stress
    multiplier and the trigger year are. *)
Lemma run_scenario_total :
  risk_free_rates d <> [] ->
  ~ amortisation_rate d == 4 ->
  ~ notional_amount d == 0 ->
  exists rows,
    V2.run_scenario d i stress trigger_time = Ok rows /\
    length rows = 32%nat.
Proof.
  intros Hr Ha Hn.
  destruct (run_periods_total V2.periods Hr Ha periods_years_positive
              (V2.init_state d) Hn) as [stf [rows H]].
  exists rows. split.
  - unfold V2.run_scenario. rewrite H. reflexivity.
  - now rewrite (run_periods_length _ _ _ _ _ _ _ _ H).
Qed.

Lemma run_scenario_Ok_inv (rows : list V2.period) :
  V2.run_scenario d i stress trigger_time = Ok rows ->
  exists stf,
    V2.run_periods d i stress trigger_time V2.periods (V2.init_state d)
      = Ok (stf, rows).
Proof.
  unfold V2.run_scenario. intro H.
  apply bind_Ok_inv in H as [[stf rs] [H1 H]].
  simpl in H. inversion H; subst. exists stf. exact H1.
Qed.

(** The first two rows of a table come from the first two quarters. *)
Lemma first_two_rows (rows : list V2.period) :
  V2.run_scenario d i stress trigger_time = Ok rows ->
  exists s1 s2 r1 r2 rest,
    rows = r1 :: r2 :: rest /\
    V2.step d i stress trigger_time (1, 1)%Z (V2.init_state d)
      = Ok (s1, r1) /\
    V2.step d i stress trigger_time (1, 2)%Z s1 = Ok (s2, r2).
Proof.
  intro H. apply run_scenario_Ok_inv in H as [stf H].
  change V2.periods
    with ((1, 1)%Z :: (1, 2)%Z :: tl (tl V2.periods)) in H.
  apply run_periods_cons_inv in H as [s1 [r1 [rs [H1 [H ->]]]]].
  apply run_periods_cons_inv in H as [s2 [r2 [rest [H2 [_ ->]]]]].
  exists s1, s2, r1, r2, rest. repeat split; assumption.
Qed.

End V2_returns.

(** ** The amortisation regime over a scenario *)

(** In version 2.0 the regime is a one-way latch: a row that follows a
    Sequential row of the same scenario is Sequential. *)
Theorem v2_sequential_is_sticky (d : deal) (i : nat) (stress : Q)
    (trigger_time : Z) (rows : list V2.period) (n m : nat)
    (r r' : V2.period) :
  V2.run_scenario d i stress trigger_time = Ok rows ->
  (n < m)%nat ->
  nth_error rows n = Some r -> V2.Amortisation_Type r = Sequential ->
  nth_error rows m = Some r' -> V2.Amortisation_Type r' = Sequential.
Proof.
  intros H Hnm Hn Hr Hm.
  apply run_scenario_Ok_inv in H as [stf H].
  eapply (run_periods_sticky d i stress trigger_time V2.periods);
    try eassumption.
  reflexivity.
Qed.

(** In version 1.0 the regime of a year is derived afresh from
    [year == trigger_time]. *)
Lemma v1_regime_is_rederived (d : deal) (i : nat) (stress : Q)
    (trigger_time year : Z) (st st' : V1.state) (r : V1.row) :
  V1.step d i stress trigger_time year st = Ok (st', r) ->
  V1.Amortisation_Type r =
    if (V1.replenishment_period <? year)%Z
    then (if (year =? trigger_time)%Z then Sequential else ProRata)
    else Replenishment.
Proof.
  unfold V1.step; cbv zeta. intro H.
  apply bind_Ok_inv in H as [fs [_ H]].
  inversion H; subst; clear H. reflexivity.
Qed.

(** C1: once a period is Sequential, every later period of the scenario
    is Sequential.  Version 1.0 breaks this on the example call of its own
    script: with trigger year 4 the table shows Sequential in year 4 and
    Pro-rata again in years 5 to 8. *)
Theorem v1_sequential_reverts_to_pro_rata :
  (rows <- V1.run_scenario example_deal_v1 0 1 4 ;; Ok (regimes_v1 rows))
  = Ok [Replenishment; Replenishment; Replenishment;
        Sequential; ProRata; ProRata; ProRata; ProRata].
Proof.
  vm_compute. reflexivity.
Qed.

Lemma no_trigger_no_latch (d : deal) (i : nat) (stress : Q)
    (trigger_time : Z) (ps : list (Z * Z)) :
  (trigger_time <= V2.replenishment_period)%Z ->
  forall (st stf : V2.state) (rows : list V2.period),
    V2.sequential_mode st = false ->
    V2.run_periods d i stress trigger_time ps st = Ok (stf, rows) ->
    Forall (fun r =>
              V2.Amortisation_Type r <> Sequential /\
              ((V2.replenishment_period < V2.Year r)%Z ->
               V2.Amortisation_Type r = ProRata)) rows.
Proof.
  intro Ht. induction ps as [|yq ps IH]; intros st stf rows Hs H.
  - simpl in H. inversion H. constructor.
  - apply run_periods_cons_inv in H as [s1 [r [rs [H1 [H2 ->]]]]].
    destruct (step_row_state _ _ _ _ _ _ _ _ H1)
      as [_ [_ [_ [_ [Hyr _]]]]].
    apply step_regime in H1
      as [[Hy [Hr Hs1]] | [[Hy [Hc _]] | [Hy [_ [_ [Hr Hs1]]]]]].
    + constructor.
      * split; [congruence | intro; lia].
      * eapply IH; [|exact H2]. congruence.
    + destruct Hc as [Hc | Hc]; [lia | congruence].
    + constructor.
      * split; [congruence | intro; exact Hr].
      * eapply IH; eassumption.
Qed.

(** C10: when the trigger year is not past the replenishment period the
    scenario never becomes Sequential: each of its periods past
    replenishment is Pro-rata. *)
Theorem trigger_within_replenishment_never_sequential (d : deal) (i : nat)
    (stress : Q) (trigger_time : Z) (rows : list V2.period) :
  (trigger_time <= V2.replenishment_period)%Z ->
  V2.run_scenario d i stress trigger_time = Ok rows ->
  Forall (fun r =>
            V2.Amortisation_Type r <> Sequential /\
            ((V2.replenishment_period < V2.Year r)%Z ->
             V2.Amortisation_Type r = ProRata)) rows.
Proof.
  intros Ht H. apply run_scenario_Ok_inv in H as [stf H].
  eapply no_trigger_no_latch; [exact Ht | | exact H]. reflexivity.
Qed.

Lemma example_deal_v2_runs (i : nat) (stress : Q) (trigger_time : Z) :
  exists rows,
    V2.run_scenario example_deal_v2 i stress trigger_time = Ok rows /\
    length rows = 32%nat.
Proof.
  apply run_scenario_total.
  - discriminate.
  - intro H. vm_compute in H. discriminate H.
  - intro H. vm_compute in H. discriminate H.
Qed.

Lemma trigger_within_replenishment_witness :
  exists rows,
    V2.run_scenario example_deal_v2 0 1 2 = Ok rows /\
    Forall (fun r =>
              V2.Amortisation_Type r <> Sequential /\
              ((V2.replenishment_period < V2.Year r)%Z ->
               V2.Amortisation_Type r = ProRata)) rows.
Proof.
  destruct (example_deal_v2_runs 0 1 2) as [rows [H _]].
  exists rows. split; [exact H|].
  apply (trigger_within_replenishment_never_sequential
           example_deal_v2 0 1 2 rows); [|exact H].
  unfold V2.replenishment_period. lia.
Defined.

(** The regimes of a run that returns are those of the latch. *)
Lemma regimes_of_run_periods (d : deal) (i : nat) (stress : Q)
    (trigger_time : Z) (ps : list (Z * Z)) :
  forall (st stf : V2.state) (rows : list V2.period),
    V2.run_periods d i stress trigger_time ps st = Ok (stf, rows) ->
    regimes_v2 rows = regime_trace trigger_time (V2.sequential_mode st) ps.
Proof.
  induction ps as [|yq ps IH]; intros st stf rows H.
  - simpl in H. inversion H. reflexivity.
  - apply run_periods_cons_inv in H as [s1 [r [rs [H1 [H2 ->]]]]].
    unfold regimes_v2 in *. simpl. rewrite (IH _ _ _ H2).
    apply step_regime in H1
      as [[Hy [-> ->]] | [[Hy [Hc [-> ->]]] | [Hy [Hn [Hs [-> ->]]]]]].
    + apply Z.leb_le in Hy. now rewrite Hy.
    + apply Z.leb_gt in Hy. rewrite Hy.
      destruct Hc as [<- | ->].
      * now rewrite Z.eqb_refl.
      * now destruct (fst yq =? trigger_time)%Z.
    + apply Z.leb_gt in Hy. rewrite Hy.
      apply Z.eqb_neq in Hn. now rewrite Hn, Hs.
Qed.

(** The regime column of a scenario depends on the trigger year only. *)
Theorem regimes_of_scenario (d : deal) (i : nat) (stress : Q)
    (trigger_time : Z) (rows : list V2.period) :
  V2.run_scenario d i stress trigger_time = Ok rows ->
  regimes_v2 rows = regime_trace trigger_time false V2.periods.
Proof.
  intro H. apply run_scenario_Ok_inv in H as [stf H].
  exact (regimes_of_run_periods _ _ _ _ _ _ _ _ H).
Qed.

(** The fourth scenario of the example call (multiplier 2.5, trigger year
    7): Pro-rata in years 4 to 6, Sequential from year 7, quarter 1, to year
    8, quarter 4. *)
Example regimes_trigger_7 :
  exists rows,
    V2.run_scenario example_deal_v2 3 2.5 7 = Ok rows /\
    regimes_v2 rows =
      repeat Replenishment 12 ++ repeat ProRata 12 ++ repeat Sequential 8.
Proof.
  destruct (example_deal_v2_runs 3 2.5 7) as [rows [H _]].
  exists rows. split; [exact H|].
  rewrite (regimes_of_scenario _ _ _ _ _ H). reflexivity.
Qed.

(** ** The cash flows of one quarter *)

(** A Pro-rata period that returns pays the tranche its share of the
    quarter's amortisation, a quarter of amortisation_rate times the
    exposure, and scales the notional like a Sequential one. *)
Lemma pro_rata_period_effect (d : deal) (i : nat) (stress : Q)
    (trigger_time : Z) (yq : Z * Z) (st st' : V2.state) (r : V2.period) :
  V2.step d i stress trigger_time yq st = Ok (st', r) ->
  V2.Amortisation_Type r = ProRata ->
  ~ V2.remaining_notional st == 0 /\
  V2.principal_payment r ==
    V2.tranche_exposure st * amortisation_rate d
    / inject_Z V2.quarters_per_year /\
  V2.remaining_notional st' ==
    V2.remaining_notional st
    * (1 - amortisation_rate d / inject_Z V2.quarters_per_year) /\
  V2.tranche_exposure st' ==
    V2.tranche_exposure st - V2.principal_payment r - V2.Losses r.
Proof.
  intros H Hr.
  apply step_Ok_inv in H as [w [rate [Hw [_ [-> ->]]]]].
  apply waterfall_cases in Hw
    as [[_ ->] | [[_ [_ ->]] | [_ [_ [_ [Hnz ->]]]]]];
    simpl in Hr; try discriminate Hr.
  cbn [V2.principal_payment V2.remaining_notional V2.Losses
       V2.tranche_exposure V2.w_principal_payment V2.w_remaining_notional
       V2.w_tranche_exposure].
  change (inject_Z V2.quarters_per_year) with 4. change V2.qpy with 4.
  repeat split; try reflexivity; try exact Hnz.
  field. exact Hnz.
Qed.

Example pro_rata_quarter :
  exists st' r,
    V2.step small_deal 0 1 5 (4, 1)%Z pro_rata_state = Ok (st', r) /\
    V2.Amortisation_Type r = ProRata /\
    V2.principal_payment r == 10 # 3 /\
    V2.Losses r == 1 /\
    V2.Tranche_Exposure r == 107 # 3 /\
    V2.Remaining_Notional r == 1100 # 3.
Proof.
  eexists; eexists. split; [vm_compute; reflexivity|].
  repeat split; reflexivity.
Qed.

(** C4: in a Sequential period the principal payment is zero, the remaining
    notional is multiplied by (1 - amortisation_rate / quarters_per_year),
    and the period's losses leave the tranche exposure twice, so that the
    exposure falls by exactly twice the losses. *)
Theorem sequential_period_effect (d : deal) (i : nat) (stress : Q)
    (trigger_time : Z) (yq : Z * Z) (st st' : V2.state) (r : V2.period) :
  V2.step d i stress trigger_time yq st = Ok (st', r) ->
  V2.Amortisation_Type r = Sequential ->
  V2.principal_payment r == 0 /\
  V2.remaining_notional st' ==
    V2.remaining_notional st
    * (1 - amortisation_rate d / inject_Z V2.quarters_per_year) /\
  V2.Losses r ==
    V2.remaining_notional st * annual_loss_rate d * stress
    / inject_Z V2.quarters_per_year /\
  V2.tranche_exposure st' == V2.tranche_exposure st - 2 * V2.Losses r /\
  V2.Remaining_Notional r = V2.remaining_notional st' /\
  V2.Tranche_Exposure r = V2.tranche_exposure st'.
Proof.
  intros H Hr.
  apply step_Ok_inv in H as [w [rate [Hw [_ [-> ->]]]]].
  apply waterfall_cases in Hw
    as [[_ ->] | [[_ [_ ->]] | [_ [_ [_ [_ ->]]]]]];
    simpl in Hr; try discriminate Hr.
  cbn [V2.principal_payment V2.remaining_notional V2.Losses
       V2.tranche_exposure V2.Remaining_Notional V2.Tranche_Exposure
       V2.w_principal_payment V2.w_remaining_notional
       V2.w_tranche_exposure].
  repeat split; try reflexivity.
  quarter_arith. ring.
Qed.

Lemma sequential_period_effect_witness :
  exists st' r,
    V2.step example_deal_v2 0 1 4 (4, 1)%Z sequential_state = Ok (st', r) /\
    V2.Amortisation_Type r = Sequential /\
    V2.principal_payment r == 0 /\
    V2.tranche_exposure st'
      == V2.tranche_exposure sequential_state - 2 * V2.Losses r.
Proof.
  eexists; eexists.
  split; [vm_compute; reflexivity|].
  split; [reflexivity|].
  pose proof (sequential_period_effect example_deal_v2 0 1 4 (4, 1)%Z
                sequential_state _ _ eq_refl eq_refl) as [H1 [_ [_ [H4 _]]]].
  split; [exact H1 | exact H4].
Defined.

Lemma last_nth_error {A : Type} (l : list A) (x dflt : A) :
  nth_error l (length l - 1) = Some x -> last l dflt = x.
Proof.
  induction l as [|a l IH]; [discriminate|].
  destruct l as [|b l].
  - simpl. congruence.
  - intro H. change (last (a :: b :: l) dflt) with (last (b :: l) dflt).
    apply IH. simpl in *. now rewrite Nat.sub_0_r in *.
Qed.

(** C5: the compounded balance starts at 0; each period adds the quarter's
    cash flow and then grows the sum by the quarter's share of
    [risk_free_rates[min(year - 1, len(risk_free_rates) - 1)]]; the
    risk-adjusted PnL is the balance less the price paid.  The rate of year
    y is the y-th of the list while the list lasts and its last entry from
    then on. *)
Theorem compounding_recurrence (d : deal) :
  V2.compounded_cashflows (V2.init_state d) = 0 /\
  forall (i : nat) (stress : Q) (trigger_time : Z) (yq : Z * Z)
         (st st' : V2.state) (r : V2.period),
    V2.step d i stress trigger_time yq st = Ok (st', r) ->
    exists rate,
      py_index (risk_free_rates d)
        (Z.min (fst yq - 1) (Z.of_nat (length (risk_free_rates d)) - 1))
        = Ok rate /\
      V2.compounded_cashflows st' ==
        (V2.compounded_cashflows st + V2.Quarterly_Cashflow r)
        * (1 + rate / inject_Z V2.quarters_per_year) /\
      V2.Discounted_PnL r == V2.compounded_cashflows st' - cln_price d /\
      ((1 <= fst yq <= Z.of_nat (length (risk_free_rates d)))%Z ->
       nth_error (risk_free_rates d) (Z.to_nat (fst yq - 1)) = Some rate) /\
      ((Z.of_nat (length (risk_free_rates d)) <= fst yq)%Z ->
       rate = last (risk_free_rates d) 0).
Proof.
  split; [reflexivity|].
  intros i stress trigger_time yq st st' r H.
  apply step_Ok_inv in H as [w [rate [_ [Hrate [-> ->]]]]].
  exists rate. split; [exact Hrate|].
  cbn [V2.compounded_cashflows V2.Quarterly_Cashflow V2.Discounted_PnL].
  split; [reflexivity|]. split; [reflexivity|].
  apply py_index_Ok_inv in Hrate as [Hne Hnth].
  assert (Hlen : (1 <= Z.of_nat (length (risk_free_rates d)))%Z).
  { destruct (risk_free_rates d); [congruence | simpl length; lia]. }
  split.
  - intros Hy. rewrite Z.min_l in Hnth by lia. apply Hnth. lia.
  - intros Hy. rewrite Z.min_r in Hnth by lia.
    symmetry. apply last_nth_error.
    replace (length (risk_free_rates d) - 1)%nat
      with (Z.to_nat (Z.of_nat (length (risk_free_rates d)) - 1)) by lia.
    apply Hnth. lia.
Qed.

Lemma compounding_recurrence_witness :
  exists st' r,
    V2.step short_curve_deal 0 1 4 (5, 2)%Z sequential_state = Ok (st', r) /\
    V2.compounded_cashflows st' ==
      (V2.compounded_cashflows sequential_state + V2.Quarterly_Cashflow r)
      * (1 + 0.02 / inject_Z V2.quarters_per_year) /\
    V2.Discounted_PnL r
      == V2.compounded_cashflows st' - cln_price short_curve_deal.
Proof.
  eexists; eexists.
  split; [vm_compute; reflexivity|].
  destruct (compounding_recurrence short_curve_deal) as [_ H].
  destruct (H 0%nat 1 4%Z (5, 2)%Z sequential_state _ _ eq_refl)
    as [rate [Hrate [Hc [Hd [_ Hlast]]]]].
  assert (Hr : rate = 0.02) by (apply Hlast; simpl; lia).
  subst rate. split; [exact Hc | exact Hd].
Defined.

(** C6: the losses of a period are remaining_notional x annual_loss_rate x
    stress_multiplier / quarters_per_year, taken on the notional the period
    starts with.  On the example deal with multiplier 1 and trigger year 4
    the first row is year 1, quarter 1, in Replenishment, with losses
    75,000 and no principal payment. *)
Theorem period_losses_formula :
  (forall (d : deal) (i : nat) (stress : Q) (trigger_time : Z) (yq : Z * Z)
          (st st' : V2.state) (r : V2.period),
      V2.step d i stress trigger_time yq st = Ok (st', r) ->
      V2.Losses r ==
        V2.remaining_notional st * annual_loss_rate d * stress
        / inject_Z V2.quarters_per_year) /\
  (exists (r : V2.period) (rest : list V2.period),
      V2.run_scenario example_deal_v2 0 1 4 = Ok (r :: rest) /\
      V2.Year r = 1%Z /\ V2.Quarter r = 1%Z /\
      V2.Amortisation_Type r = Replenishment /\
      V2.Losses r == 75000 /\
      V2.principal_payment r == 0).
Proof.
  split.
  - intros d i stress trigger_time yq st st' r H.
    apply step_Ok_inv in H as [w [rate [_ [_ [_ ->]]]]]. reflexivity.
  - destruct (example_deal_v2_runs 0 1 4) as [rows [H _]].
    pose proof H as H'. apply run_scenario_Ok_inv in H' as [stf H'].
    change V2.periods with ((1, 1)%Z :: tl V2.periods) in H'.
    apply run_periods_cons_inv in H' as [s1 [r [rs [H1 [_ ->]]]]].
    exists r, rs. split; [exact H|].
    vm_compute in H1. inversion H1; subst; clear H1.
    repeat split; reflexivity.
Qed.

Lemma period_losses_formula_witness :
  exists st' r,
    V2.step example_deal_v2 0 1 4 (1, 1)%Z (V2.init_state example_deal_v2)
      = Ok (st', r) /\
    V2.Losses r ==
      V2.remaining_notional (V2.init_state example_deal_v2)
      * annual_loss_rate example_deal_v2 * 1
      / inject_Z V2.quarters_per_year.
Proof.
  eexists; eexists.
  split; [vm_compute; reflexivity|].
  destruct period_losses_formula as [H _].
  exact (H example_deal_v2 0%nat 1 4%Z (1, 1)%Z
           (V2.init_state example_deal_v2) _ _ eq_refl).
Defined.

(** *** The coupon base *)

(** In the first quarter of the example scenario the coupon is a quarter of
    11% of 50,000,000, the exposure before the quarter's losses, and not of
    the 49,925,000 the row records after them. *)
Lemma coupon_not_on_post_loss_exposure :
  exists st' r,
    V2.step example_deal_v2 0 1 4 (1, 1)%Z (V2.init_state example_deal_v2)
      = Ok (st', r) /\
    V2.Tranche_Exposure r == 49925000 /\
    V2.quarterly_coupon r == 1375000 /\
    ~ V2.quarterly_coupon r ==
        V2.Tranche_Exposure r * coupon_rate example_deal_v2
        / inject_Z V2.quarters_per_year.
Proof.
  eexists; eexists.
  split; [vm_compute; reflexivity|].
  split; [reflexivity|]. split; [reflexivity|].
  intro H. vm_compute in H. discriminate H.
Qed.

(** C2, as the code has it: in version 2.0 the quarterly coupon is taken on
    the exposure after the period's principal payment (and, in a Sequential
    period, after the first of its two loss deductions) but before the loss
    deduction every period ends with, that is on the recorded exposure plus
    the period's losses; the cash flow is that coupon plus the principal
    payment.  In version 1.0 the yearly cash flow is the coupon on the
    recorded, post-loss exposure. *)
Theorem coupon_base :
  (forall (d : deal) (i : nat) (stress : Q) (trigger_time : Z) (yq : Z * Z)
          (st st' : V2.state) (r : V2.period),
      V2.step d i stress trigger_time yq st = Ok (st', r) ->
      V2.quarterly_coupon r ==
        (V2.Tranche_Exposure r + V2.Losses r) * coupon_rate d
        / inject_Z V2.quarters_per_year /\
      V2.Tranche_Exposure r + V2.Losses r ==
        V2.tranche_exposure st - V2.principal_payment r
        - (if amortisation_eqb (V2.Amortisation_Type r) Sequential
           then V2.Losses r else 0) /\
      V2.Quarterly_Cashflow r
        == V2.quarterly_coupon r + V2.principal_payment r) /\
  (forall (d : deal) (i : nat) (stress : Q) (trigger_time year : Z)
          (st st' : V1.state) (r : V1.row),
      V1.step d i stress trigger_time year st = Ok (st', r) ->
      V1.Annual_Cashflow r == V1.Tranche_Exposure r * coupon_rate d).
Proof.
  split.
  - intros d i stress trigger_time yq st st' r H.
    apply step_Ok_inv in H as [w [rate [Hw [_ [_ ->]]]]].
    apply waterfall_cases in Hw
      as [[_ ->] | [[_ [_ ->]] | [_ [_ [_ [_ ->]]]]]];
      cbn [V2.quarterly_coupon V2.Tranche_Exposure V2.Losses
           V2.principal_payment V2.Quarterly_Cashflow V2.Amortisation_Type
           V2.w_quarterly_coupon V2.w_tranche_exposure
           V2.w_principal_payment V2.w_quarterly_cashflow
           V2.w_amortisation_type amortisation_eqb];
      change (inject_Z V2.quarters_per_year) with V2.qpy;
      repeat split; quarter_arith; ring.
  - intros d i stress trigger_time year st st' r H.
    unfold V1.step in H; cbv zeta in H.
    apply bind_Ok_inv in H as [fs [_ H]].
    inversion H; subst; clear H. reflexivity.
Qed.

Lemma coupon_base_witness :
  exists st' r,
    V2.step example_deal_v2 0 1 4 (1, 1)%Z (V2.init_state example_deal_v2)
      = Ok (st', r) /\
    V2.quarterly_coupon r ==
      (V2.Tranche_Exposure r + V2.Losses r) * coupon_rate example_deal_v2
      / inject_Z V2.quarters_per_year.
Proof.
  eexists; eexists.
  split; [vm_compute; reflexivity|].
  destruct coupon_base as [H _].
  destruct (H example_deal_v2 0%nat 1 4%Z (1, 1)%Z
              (V2.init_state example_deal_v2) _ _ eq_refl) as [Hc _].
  exact Hc.
Defined.

(** *** Division by an exhausted notional *)

Lemma run_periods_raise (d : deal) (i : nat) (stress : Q) (trigger_time : Z)
    (yq : Z * Z) (ps : list (Z * Z)) (st : V2.state) (e : exn) :
  V2.step d i stress trigger_time yq st = Raise e ->
  V2.run_periods d i stress trigger_time (yq :: ps) st = Raise e.
Proof.
  intro H. simpl. rewrite H. reflexivity.
Qed.

(** With [amortisation_rate = 4] the notional is exhausted by the first
    pro-rata quarter (year 4, quarter 1, trigger year 5); the second one
    divides by it and the whole scenario is lost to [ZeroDivisionError].
    The same happens at once from a state whose notional is zero. *)
Lemma zero_notional_pro_rata_faults :
  (exists s rows,
      V2.run_periods full_amortisation_deal 0 1 5 (firstn 13 V2.periods)
        (V2.init_state full_amortisation_deal) = Ok (s, rows) /\
      V2.remaining_notional s == 0 /\
      nth_error V2.periods 13 = Some (4, 2)%Z /\
      V2.step full_amortisation_deal 0 1 5 (4, 2)%Z s
        = Raise ZeroDivisionError) /\
  V2.run_scenario full_amortisation_deal 0 1 5 = Raise ZeroDivisionError /\
  V2.step example_deal_v2 0 1 5 (4, 1)%Z exhausted_state
    = Raise ZeroDivisionError.
Proof.
  split; [|split].
  - eexists; eexists.
    split; [vm_compute; reflexivity|].
    split; [reflexivity|]. split; reflexivity.
  - vm_compute. reflexivity.
  - vm_compute. reflexivity.
Qed.

(** C3, as the code has it: a pro-rata period (past replenishment, not the
    trigger year, latch not set) that starts with a zero remaining notional
    raises [ZeroDivisionError] at the share computation; no principal
    payment is produced and the run of periods it belongs to ends without a
    table. *)
Theorem pro_rata_zero_notional_raises (d : deal) (i : nat) (stress : Q)
    (trigger_time : Z) (yq : Z * Z) (ps : list (Z * Z)) (st : V2.state) :
  (V2.replenishment_period < fst yq)%Z ->
  fst yq <> trigger_time ->
  V2.sequential_mode st = false ->
  V2.remaining_notional st == 0 ->
  V2.step d i stress trigger_time yq st = Raise ZeroDivisionError /\
  V2.run_periods d i stress trigger_time (yq :: ps) st
    = Raise ZeroDivisionError.
Proof.
  intros Hy Ht Hs Hz.
  assert (H : V2.step d i stress trigger_time yq st = Raise ZeroDivisionError).
  { unfold V2.step, V2.waterfall; cbv zeta.
    apply Z.leb_gt in Hy. rewrite Hy.
    apply Z.eqb_neq in Ht. rewrite Ht, Hs.
    rewrite (py_div_zero _ _ Hz). reflexivity. }
  split; [exact H | now apply run_periods_raise].
Qed.

Lemma pro_rata_zero_notional_raises_witness :
  V2.step example_deal_v2 0 1 5 (4, 1)%Z exhausted_state
    = Raise ZeroDivisionError /\
  V2.run_periods example_deal_v2 0 1 5 [(4, 1)%Z; (4, 2)%Z] exhausted_state
    = Raise ZeroDivisionError.
Proof.
  apply (pro_rata_zero_notional_raises example_deal_v2 0 1 5 (4, 1)%Z
           [(4, 2)%Z] exhausted_state).
  - unfold V2.replenishment_period. simpl. lia.
  - simpl. lia.
  - reflexivity.
  - reflexivity.
Defined.

(** ** The trajectory of the remaining notional *)

Lemma Qpower_of_nat_succ (q : Q) (k : nat) :
  q ^ Z.of_nat (S k) == q * q ^ Z.of_nat k.
Proof.
  rewrite Nat2Z.inj_succ. unfold Z.succ.
  rewrite Qpower_plus' by lia.
  rewrite Qpower_1_r. ring.
Qed.

Lemma amortised_cons (yq : Z * Z) (ps : list (Z * Z)) :
  amortised (yq :: ps) =
    if (fst yq <=? V2.replenishment_period)%Z then amortised ps
    else S (amortised ps).
Proof.
  unfold amortised. simpl.
  destruct (fst yq <=? V2.replenishment_period)%Z; reflexivity.
Qed.

Section V2_notional.

Variable d : deal.
Variable i : nat.
Variable stress : Q.
Variable trigger_time : Z.

Local Abbreviation scale := (1 - amortisation_rate d / V2.qpy).

(** The notional a row records is the starting one scaled once for each
    period past replenishment run so far. *)
Lemma notional_along_run (ps : list (Z * Z)) :
  forall (st stf : V2.state) (rows : list V2.period) (n : nat)
         (r : V2.period),
    V2.run_periods d i stress trigger_time ps st = Ok (stf, rows) ->
    nth_error rows n = Some r ->
    V2.Remaining_Notional r ==
      V2.remaining_notional st * scale ^ Z.of_nat (amortised (firstn (S n) ps)).
Proof.
  induction ps as [|yq ps IH]; intros st stf rows n r H Hn.
  - simpl in H. inversion H; subst. destruct n; discriminate.
  - apply run_periods_cons_inv in H as [s1 [r0 [rs [H1 [H2 ->]]]]].
    pose proof (step_remaining_notional _ _ _ _ _ _ _ _ H1) as Hrn.
    destruct (step_row_state _ _ _ _ _ _ _ _ H1) as [Hrow _].
    rewrite firstn_cons, amortised_cons.
    destruct n as [|n].
    + simpl in Hn. inversion Hn; subst r0. rewrite Hrow, Hrn.
      rewrite firstn_O. change (amortised []) with 0%nat.
      destruct (fst yq <=? V2.replenishment_period)%Z.
      * change (Z.of_nat 0) with 0%Z. rewrite Qpower_0_r. ring.
      * change (Z.of_nat 1) with 1%Z. rewrite Qpower_1_r. reflexivity.
    + simpl in Hn. rewrite (IH s1 stf rs n r H2 Hn), Hrn.
      destruct (fst yq <=? V2.replenishment_period)%Z.
      * reflexivity.
      * rewrite Qpower_of_nat_succ. ring.
Qed.

(** While no period past replenishment has run, the notional is the very
    value the scenario started with. *)
Lemma notional_untouched (ps : list (Z * Z)) :
  forall (st stf : V2.state) (rows : list V2.period) (n : nat)
         (r : V2.period),
    V2.run_periods d i stress trigger_time ps st = Ok (stf, rows) ->
    nth_error rows n = Some r ->
    amortised (firstn (S n) ps) = 0%nat ->
    V2.Remaining_Notional r = V2.remaining_notional st.
Proof.
  induction ps as [|yq ps IH]; intros st stf rows n r H Hn Ha.
  - simpl in H. inversion H; subst. destruct n; discriminate.
  - apply run_periods_cons_inv in H as [s1 [r0 [rs [H1 [H2 ->]]]]].
    pose proof (step_remaining_notional _ _ _ _ _ _ _ _ H1) as Hrn.
    destruct (step_row_state _ _ _ _ _ _ _ _ H1) as [Hrow _].
    rewrite firstn_cons, amortised_cons in Ha.
    destruct (fst yq <=? V2.replenishment_period)%Z; [|discriminate].
    destruct n as [|n].
    + simpl in Hn. inversion Hn; subst r0. congruence.
    + simpl in Hn. rewrite (IH s1 stf rs n r H2 Hn Ha). exact Hrn.
Qed.

End V2_notional.

Lemma amortised_periods (n : nat) :
  (n < 32)%nat -> amortised (firstn (S n) V2.periods) = (S n - 12)%nat.
Proof.
  intro Hn.
  do 32 (destruct n as [|n]; [reflexivity|]). lia.
Qed.

(** Two scenarios of one deal record the same remaining notional quarter
    by quarter, whatever their stress multipliers and trigger years. *)
Lemma remaining_notional_same_across_scenarios (d : deal) (i1 i2 : nat)
    (stress1 stress2 : Q) (trigger1 trigger2 : Z)
    (rows1 rows2 : list V2.period) (n : nat) (r1 r2 : V2.period) :
  V2.run_scenario d i1 stress1 trigger1 = Ok rows1 ->
  V2.run_scenario d i2 stress2 trigger2 = Ok rows2 ->
  nth_error rows1 n = Some r1 ->
  nth_error rows2 n = Some r2 ->
  V2.Remaining_Notional r1 == V2.Remaining_Notional r2.
Proof.
  intros H1 H2 Hn1 Hn2.
  apply run_scenario_Ok_inv in H1 as [stf1 H1].
  apply run_scenario_Ok_inv in H2 as [stf2 H2].
  rewrite (notional_along_run _ _ _ _ _ _ _ _ _ _ H1 Hn1).
  rewrite (notional_along_run _ _ _ _ _ _ _ _ _ _ H2 Hn2).
  reflexivity.
Qed.

(** C9: losses never touch the remaining notional.  The n-th row of a
    scenario (counting from 0) records notional_amount for the twelve
    replenishment quarters and notional_amount x
    (1 - amortisation_rate / quarters_per_year)^k after k quarters past
    replenishment; the closed form mentions neither the stress multiplier
    nor the trigger year. *)
Theorem remaining_notional_trajectory (d : deal) (i : nat) (stress : Q)
    (trigger_time : Z) (rows : list V2.period) (n : nat) (r : V2.period) :
  V2.run_scenario d i stress trigger_time = Ok rows ->
  nth_error rows n = Some r ->
  V2.Remaining_Notional r ==
    notional_amount d
    * (1 - amortisation_rate d / inject_Z V2.quarters_per_year)
      ^ Z.of_nat (S n - 12) /\
  V2.Remaining_Notional r == notional_closed_form d (S n) /\
  ((n < 12)%nat -> V2.Remaining_Notional r = notional_amount d).
Proof.
  intros H Hn. apply run_scenario_Ok_inv in H as [stf H].
  assert (Hlt : (n < 32)%nat).
  { assert (Hs : nth_error rows n <> None) by congruence.
    apply nth_error_Some in Hs.
    rewrite (run_periods_length _ _ _ _ _ _ _ _ H) in Hs. exact Hs. }
  assert (Hcf : V2.Remaining_Notional r == notional_closed_form d (S n)).
  { rewrite (notional_along_run _ _ _ _ _ _ _ _ _ _ H Hn).
    rewrite (amortised_periods n Hlt). reflexivity. }
  split; [exact Hcf | split; [exact Hcf|]].
  intro H12.
  rewrite (notional_untouched _ _ _ _ _ _ _ _ _ _ H Hn); [reflexivity|].
  rewrite (amortised_periods n Hlt). lia.
Qed.

Lemma small_deal_runs (i : nat) (stress : Q) (trigger_time : Z) :
  exists rows,
    V2.run_scenario small_deal i stress trigger_time = Ok rows /\
    length rows = 32%nat.
Proof.
  apply run_scenario_total.
  - discriminate.
  - intro H. vm_compute in H. discriminate H.
  - intro H. vm_compute in H. discriminate H.
Qed.

Lemma remaining_notional_trajectory_witness :
  exists rows r,
    V2.run_scenario small_deal 0 1 4 = Ok rows /\
    nth_error rows 13 = Some r /\
    V2.Remaining_Notional r ==
      notional_amount small_deal
      * (1 - amortisation_rate small_deal / inject_Z V2.quarters_per_year)
        ^ 2.
Proof.
  destruct (small_deal_runs 0 1 4) as [rows [E L]].
  destruct (nth_error rows 13) as [r|] eqn:En.
  - exists rows, r. split; [exact E|]. split; [exact En|].
    exact (proj1 (remaining_notional_trajectory small_deal 0 1 4
                    rows 13 r E En)).
  - apply nth_error_None in En. rewrite L in En. exfalso. lia.
Defined.

(** ** Monotonicity *)

Section V2_monotone.

Variable d : deal.
Variable i : nat.
Variable stress : Q.
Variable trigger_time : Z.

(** One quarter lowers, or keeps, both amounts when it starts from
    non-negative ones and neither the amortisation rate nor its losses are
    negative. *)
Lemma step_non_increasing (yq : Z * Z) (st st' : V2.state) (r : V2.period) :
  V2.step d i stress trigger_time yq st = Ok (st', r) ->
  0 <= amortisation_rate d ->
  0 <= V2.Losses r ->
  0 <= V2.remaining_notional st ->
  0 <= V2.tranche_exposure st ->
  V2.remaining_notional st' <= V2.remaining_notional st /\
  V2.tranche_exposure st' <= V2.tranche_exposure st.
Proof.
  intros H Ha Hl Hn He.
  apply step_Ok_inv in H as [w [rate [Hw [_ [-> ->]]]]].
  cbn [V2.Losses] in Hl.
  apply waterfall_cases in Hw
    as [[_ ->] | [[_ [_ ->]] | [_ [_ [_ [Hnz ->]]]]]];
    cbn [V2.remaining_notional V2.tranche_exposure
         V2.w_remaining_notional V2.w_tranche_exposure].
  - split; quarter_arith; lra.
  - split; quarter_arith; nra.
  - assert (Hpp : V2.tranche_exposure st / V2.remaining_notional st
                  * (V2.remaining_notional st * amortisation_rate d / V2.qpy)
                  == V2.tranche_exposure st * amortisation_rate d * (1 # 4)).
    { change V2.qpy with 4. field. exact Hnz. }
    rewrite Hpp. split; quarter_arith; nra.
Qed.

(** Two rows in a row: the later one is produced from the state the earlier
    one records. *)
Lemma consecutive_rows (ps : list (Z * Z)) :
  forall (st stf : V2.state) (rows : list V2.period) (n : nat)
         (r1 r2 : V2.period),
    V2.run_periods d i stress trigger_time ps st = Ok (stf, rows) ->
    nth_error rows n = Some r1 ->
    nth_error rows (S n) = Some r2 ->
    exists yq s1 s2,
      V2.step d i stress trigger_time yq s1 = Ok (s2, r2) /\
      V2.remaining_notional s1 = V2.Remaining_Notional r1 /\
      V2.tranche_exposure s1 = V2.Tranche_Exposure r1.
Proof.
  induction ps as [|yq ps IH]; intros st stf rows n r1 r2 H Hn HSn.
  - simpl in H. inversion H; subst. destruct n; discriminate.
  - apply run_periods_cons_inv in H as [s1 [r0 [rs [H1 [H2 ->]]]]].
    destruct n as [|n].
    + simpl in Hn, HSn. inversion Hn; subst r0.
      destruct ps as [|yq' ps].
      * simpl in H2. inversion H2; subst. discriminate.
      * apply run_periods_cons_inv in H2 as [s2 [r' [rs' [H3 [_ ->]]]]].
        simpl in HSn. inversion HSn; subst r'.
        destruct (step_row_state _ _ _ _ _ _ _ _ H1) as [Hrn [Hte _]].
        exists yq', s1, s2. repeat split; [exact H3 | congruence | congruence].
    + simpl in Hn. change (nth_error (r0 :: rs) (S (S n)))
        with (nth_error rs (S n)) in HSn.
      eapply IH; eassumption.
Qed.

End V2_monotone.

(** C7: with a non-negative amortisation rate, a period whose losses are
    not negative and which starts from non-negative amounts records a
    remaining notional and a tranche exposure no larger than those it
    started from: the deal's own for the first period, the previous row's
    for every later one. *)
Theorem notional_and_exposure_non_increasing (d : deal) (i : nat)
    (stress : Q) (trigger_time : Z) (rows : list V2.period) :
  V2.run_scenario d i stress trigger_time = Ok rows ->
  0 <= amortisation_rate d ->
  (forall r : V2.period,
      nth_error rows 0 = Some r ->
      0 <= V2.Losses r ->
      0 <= notional_amount d -> 0 <= tranche_size d ->
      V2.Remaining_Notional r <= notional_amount d /\
      V2.Tranche_Exposure r <= tranche_size d) /\
  (forall (n : nat) (r1 r2 : V2.period),
      nth_error rows n = Some r1 ->
      nth_error rows (S n) = Some r2 ->
      0 <= V2.Losses r2 ->
      0 <= V2.Remaining_Notional r1 -> 0 <= V2.Tranche_Exposure r1 ->
      V2.Remaining_Notional r2 <= V2.Remaining_Notional r1 /\
      V2.Tranche_Exposure r2 <= V2.Tranche_Exposure r1).
Proof.
  intros H Ha. apply run_scenario_Ok_inv in H as [stf H]. split.
  - intros r Hr Hl Hn He.
    change V2.periods with ((1, 1)%Z :: tl V2.periods) in H.
    apply run_periods_cons_inv in H as [s1 [r0 [rs [H1 [_ ->]]]]].
    simpl in Hr. inversion Hr; subst r0.
    destruct (step_row_state _ _ _ _ _ _ _ _ H1) as [Hrn [Hte _]].
    rewrite Hrn, Hte.
    exact (step_non_increasing _ _ _ _ _ _ _ _ H1 Ha Hl Hn He).
  - intros n r1 r2 Hn HSn Hl Hrn Hte.
    destruct (consecutive_rows _ _ _ _ _ _ _ _ _ _ _ H Hn HSn)
      as [yq [s1 [s2 [H1 [E1 E2]]]]].
    destruct (step_row_state _ _ _ _ _ _ _ _ H1) as [Hrn2 [Hte2 _]].
    rewrite Hrn2, Hte2, <- E1, <- E2.
    apply (step_non_increasing _ _ _ _ _ _ _ _ H1 Ha Hl).
    + rewrite E1. exact Hrn.
    + rewrite E2. exact Hte.
Qed.

Lemma notional_and_exposure_non_increasing_witness :
  exists rows r1 r2,
    V2.run_scenario small_deal 0 1 4 = Ok rows /\
    nth_error rows 0 = Some r1 /\
    nth_error rows 1 = Some r2 /\
    V2.Remaining_Notional r1 <= notional_amount small_deal /\
    V2.Tranche_Exposure r1 <= tranche_size small_deal /\
    V2.Remaining_Notional r2 <= V2.Remaining_Notional r1 /\
    V2.Tranche_Exposure r2 <= V2.Tranche_Exposure r1.
Proof.
  destruct (small_deal_runs 0 1 4) as [rows [E _]].
  destruct (first_two_rows _ _ _ _ _ E)
    as [s1 [s2 [r1 [r2 [rest [Hrows [H1 H2]]]]]]].
  vm_compute in H1. inversion H1; subst s1 r1; clear H1.
  vm_compute in H2. inversion H2; subst s2 r2; clear H2.
  assert (Ha : 0 <= amortisation_rate small_deal)
    by (apply Qle_bool_iff; reflexivity).
  destruct (notional_and_exposure_non_increasing small_deal 0 1 4 rows E Ha)
    as [Hfirst Hnext].
  subst rows. eexists; eexists; eexists.
  split; [exact E|]. split; [reflexivity|]. split; [reflexivity|].
  destruct (Hfirst _ eq_refl) as [F1 F2];
    [apply Qle_bool_iff; reflexivity .. |].
  destruct (Hnext 0%nat _ _ eq_refl eq_refl) as [N1 N2];
    [apply Qle_bool_iff; reflexivity .. |].
  repeat split; assumption.
Defined.

(** ** What the function does with inputs it might have rejected *)

Lemma py_index_raise_inv {A : Type} (l : list A) (i : Z) (e : exn) :
  py_index l i = Raise e -> e = IndexError.
Proof.
  unfold py_index; cbv zeta.
  destruct ((_ <? 0)%Z || _)%bool; [congruence|].
  destruct (nth_error l _); [discriminate | congruence].
Qed.

(** Without a rate curve the first quarter of a scenario already fails at
    the rate lookup. *)
Lemma run_scenario_no_curve (d : deal) (i : nat) (stress : Q)
    (trigger_time : Z) :
  risk_free_rates d = [] ->
  V2.run_scenario d i stress trigger_time = Raise IndexError.
Proof.
  intro Hr. unfold V2.run_scenario.
  change V2.periods with ((1, 1)%Z :: tl V2.periods).
  rewrite (run_periods_raise d i stress trigger_time _ _ _ IndexError);
    [apply bind_Raise|].
  unfold V2.step, V2.waterfall; cbv zeta.
  change (fst (1, 1)%Z <=? V2.replenishment_period)%Z with true.
  cbv iota. rewrite bind_Ok, Hr, py_index_nil. apply bind_Raise.
Qed.

(** One turn of the outer loop. *)
Lemma scenarios_cons (d : deal) (trigger_timings : list Z) (i : nat)
    (stress : Q) (rest : list Q) :
  V2.scenarios d trigger_timings i (stress :: rest) =
    (trigger_time <- py_index trigger_timings (Z.of_nat i) ;;
     rows <- V2.run_scenario d i stress trigger_time ;;
     rows' <- V2.scenarios d trigger_timings (S i) rest ;;
     Ok (rows ++ rows')).
Proof. reflexivity. Qed.

Lemma scenarios_cons_Ok (d : deal) (trigger_timings : list Z) (i : nat)
    (stress : Q) (rest : list Q) (t : Z) (rows rows' : list V2.period) :
  py_index trigger_timings (Z.of_nat i) = Ok t ->
  V2.run_scenario d i stress t = Ok rows ->
  V2.scenarios d trigger_timings (S i) rest = Ok rows' ->
  V2.scenarios d trigger_timings i (stress :: rest) = Ok (rows ++ rows').
Proof.
  intros Ht H1 H2.
  rewrite scenarios_cons, Ht, bind_Ok, H1, bind_Ok, H2, bind_Ok.
  reflexivity.
Qed.

Lemma scenarios_no_curve (d : deal) (trigger_timings : list Z) (i : nat)
    (stress : Q) (rest : list Q) :
  risk_free_rates d = [] ->
  V2.scenarios d trigger_timings i (stress :: rest) = Raise IndexError.
Proof.
  intro Hr. rewrite scenarios_cons.
  destruct (py_index trigger_timings (Z.of_nat i)) as [t|e] eqn:E.
  - rewrite bind_Ok, (run_scenario_no_curve d i stress t Hr).
    apply bind_Raise.
  - apply py_index_raise_inv in E. subst e. apply bind_Raise.
Qed.

Lemma scenarios_total (d : deal) (trigger_timings : list Z)
    (stress_scenarios : list Q) :
  risk_free_rates d <> [] ->
  ~ amortisation_rate d == 4 ->
  ~ notional_amount d == 0 ->
  forall i : nat,
    (i + length stress_scenarios <= length trigger_timings)%nat ->
    exists rows,
      V2.scenarios d trigger_timings i stress_scenarios = Ok rows /\
      length rows = (32 * length stress_scenarios)%nat.
Proof.
  intros Hr Ha Hn.
  induction stress_scenarios as [|stress rest IH]; intros i Hlen.
  - exists []. split; reflexivity.
  - simpl length in Hlen.
    destruct (py_index_in_range trigger_timings (Z.of_nat i))
      as [t [Ht _]]; [lia|].
    destruct (run_scenario_total d i stress t Hr Ha Hn) as [rows [H1 L1]].
    destruct (IH (S i)) as [rows' [H2 L2]]; [lia|].
    exists (rows ++ rows'). split.
    + now apply (scenarios_cons_Ok d trigger_timings i stress rest t).
    + rewrite length_app, L1, L2. simpl length. lia.
Qed.

(** The example call of the script returns four scenarios of 32 rows. *)
Example example_call_returns :
  exists rows,
    V2.srt_stress_analysis example_deal_v2 example_stress_scenarios
      example_trigger_timings = Ok rows /\
    length rows = 128%nat.
Proof.
  destruct (example_deal_v2_runs 0 1 4) as [r1 [H1 L1]].
  destruct (example_deal_v2_runs 1 1.5 5) as [r2 [H2 L2]].
  destruct (example_deal_v2_runs 2 2 6) as [r3 [H3 L3]].
  destruct (example_deal_v2_runs 3 2.5 7) as [r4 [H4 L4]].
  exists (r1 ++ r2 ++ r3 ++ r4 ++ []). split.
  - unfold V2.srt_stress_analysis, example_stress_scenarios,
      example_trigger_timings.
    apply (scenarios_cons_Ok _ _ _ _ _ 4%Z); [reflexivity | exact H1 |].
    apply (scenarios_cons_Ok _ _ _ _ _ 5%Z); [reflexivity | exact H2 |].
    apply (scenarios_cons_Ok _ _ _ _ _ 6%Z); [reflexivity | exact H3 |].
    apply (scenarios_cons_Ok _ _ _ _ _ 7%Z); [reflexivity | exact H4 |].
    reflexivity.
  - rewrite !length_app, L1, L2, L3, L4. reflexivity.
Qed.

(** A stress multiplier of -1 and a trigger year of 9 are taken as they
    come: the call returns both scenarios, 64 rows, the first of which
    carries losses of -75,000. *)
Lemma configuration_errors_not_reported :
  exists (r : V2.period) (rest : list V2.period),
    V2.srt_stress_analysis example_deal_v2 [-1; 1] [4; 9]%Z
      = Ok (r :: rest) /\
    length (r :: rest) = 64%nat /\
    V2.Stress_Multiplier r == -1 /\
    V2.Trigger_Time r = 4%Z /\
    V2.Losses r == -75000.
Proof.
  destruct (example_deal_v2_runs 0 (-1) 4) as [rows1 [H1 L1]].
  destruct (example_deal_v2_runs 1 1 9) as [rows2 [H2 L2]].
  pose proof H1 as H1'. apply run_scenario_Ok_inv in H1' as [stf H1'].
  change V2.periods with ((1, 1)%Z :: tl V2.periods) in H1'.
  apply run_periods_cons_inv in H1' as [s1 [r [rs [Hstep [_ ->]]]]].
  exists r, (rs ++ rows2). split; [|split].
  - unfold V2.srt_stress_analysis.
    change (r :: rs ++ rows2) with ((r :: rs) ++ rows2).
    apply (scenarios_cons_Ok _ _ _ _ _ 4%Z); [reflexivity | exact H1 |].
    rewrite <- (app_nil_r rows2).
    apply (scenarios_cons_Ok _ _ _ _ _ 9%Z); [reflexivity | exact H2 |].
    reflexivity.
  - simpl length in L1 |- *. rewrite length_app, L2. lia.
  - vm_compute in Hstep. inversion Hstep; subst; clear Hstep.
    repeat split; reflexivity.
Qed.

(** C8, as the code has it: nothing is validated.  The maturity, the
    replenishment period and the number of periods per year are constants of
    the code.  Given a trigger year for each scenario, a non-empty rate
    curve, a non-zero notional and an amortisation rate other than 4, the
    call returns 32 rows per scenario for any stress multipliers and any
    trigger years.  Only an empty rate curve stops a call that has a
    scenario to run, and it does so by the [IndexError] of the first rate
    lookup. *)
Theorem no_configuration_check :
  V2.maturity = 8%Z /\ V2.replenishment_period = 3%Z /\
  V2.quarters_per_year = 4%Z /\
  (forall (d : deal) (stress_scenarios : list Q) (trigger_timings : list Z),
      (length stress_scenarios <= length trigger_timings)%nat ->
      risk_free_rates d <> [] ->
      ~ notional_amount d == 0 ->
      ~ amortisation_rate d == 4 ->
      exists rows,
        V2.srt_stress_analysis d stress_scenarios trigger_timings = Ok rows /\
        length rows = (32 * length stress_scenarios)%nat) /\
  (forall (d : deal) (stress : Q) (rest : list Q) (trigger_timings : list Z),
      risk_free_rates d = [] ->
      V2.srt_stress_analysis d (stress :: rest) trigger_timings
        = Raise IndexError).
Proof.
  repeat split.
  - intros d stress_scenarios trigger_timings Hlen Hr Hn Ha.
    apply scenarios_total; [exact Hr | exact Ha | exact Hn | simpl; lia].
  - intros d stress rest trigger_timings Hr.
    now apply scenarios_no_curve.
Qed.

Lemma no_configuration_check_witness :
  (exists rows,
      V2.srt_stress_analysis example_deal_v2 [-1; 0; 1] [0; 4; 9]%Z
        = Ok rows /\
      length rows = 96%nat) /\
  V2.srt_stress_analysis no_curve_deal [1] [4]%Z = Raise IndexError.
Proof.
  destruct no_configuration_check as [_ [_ [_ [Hruns Hstops]]]].
  split.
  - apply (Hruns example_deal_v2 [-1; 0; 1] [0; 4; 9]%Z).
    + simpl. lia.
    + discriminate.
    + intro H. vm_compute in H. discriminate H.
    + intro H. vm_compute in H. discriminate H.
  - apply (Hstops no_curve_deal 1 [] [4]%Z). reflexivity.
Defined.

(** * Further properties of version 2.0 *)

(** ** The shape of a scenario's table *)

Lemma periods_nth (n : nat) :
  (n < 32)%nat ->
  nth_error V2.periods n
    = Some ((Z.of_nat (n / 4) + 1)%Z, (Z.of_nat (n mod 4) + 1)%Z).
Proof.
  intro Hn.
  do 32 (destruct n as [|n]; [reflexivity|]). lia.
Qed.

Lemma run_periods_labels (d : deal) (i : nat) (stress : Q)
    (trigger_time : Z) (ps : list (Z * Z)) :
  forall (st stf : V2.state) (rows : list V2.period),
    V2.run_periods d i stress trigger_time ps st = Ok (stf, rows) ->
    map (fun r => (V2.Year r, V2.Quarter r)) rows = ps /\
    Forall (fun r => V2.Scenario r = S i /\
                     V2.Trigger_Time r = trigger_time /\
                     V2.Stress_Multiplier r = stress) rows.
Proof.
  induction ps as [|yq ps IH]; intros st stf rows H.
  - simpl in H. inversion H. split; [reflexivity | constructor].
  - apply run_periods_cons_inv in H as [s1 [r [rs [H1 [H2 ->]]]]].
    destruct (IH _ _ _ H2) as [Hm Hf].
    apply step_Ok_inv in H1 as [w [rate [_ [_ [_ ->]]]]].
    split.
    + simpl. rewrite Hm. now destruct yq.
    + constructor; [simpl; repeat split | exact Hf].
Qed.

(** A scenario that returns yields 32 rows in chronological order: row n
    (from 0) is quarter n mod 4 + 1 of year n / 4 + 1, and every row carries
    the scenario's number, trigger year and stress multiplier. *)
Theorem rows_are_chronological (d : deal) (i : nat) (stress : Q)
    (trigger_time : Z) (rows : list V2.period) :
  V2.run_scenario d i stress trigger_time = Ok rows ->
  length rows = 32%nat /\
  forall (n : nat) (r : V2.period),
    nth_error rows n = Some r ->
    V2.Year r = (Z.of_nat (n / 4) + 1)%Z /\
    V2.Quarter r = (Z.of_nat (n mod 4) + 1)%Z /\
    V2.Scenario r = S i /\
    V2.Trigger_Time r = trigger_time /\
    V2.Stress_Multiplier r = stress.
Proof.
  intro H. apply run_scenario_Ok_inv in H as [stf H].
  pose proof (run_periods_length _ _ _ _ _ _ _ _ H) as Hlen.
  destruct (run_periods_labels _ _ _ _ _ _ _ _ H) as [Hm Hf].
  split; [exact Hlen|].
  intros n r Hn.
  assert (Hlt : (n < 32)%nat).
  { assert (Hs : nth_error rows n <> None) by congruence.
    apply nth_error_Some in Hs. rewrite Hlen in Hs. exact Hs. }
  assert (Hyq : nth_error V2.periods n = Some (V2.Year r, V2.Quarter r)).
  { rewrite <- Hm. rewrite nth_error_map, Hn. reflexivity. }
  rewrite (periods_nth n Hlt) in Hyq. inversion Hyq as [[Hy Hq]].
  rewrite Forall_forall in Hf.
  destruct (Hf r (nth_error_In _ _ Hn)) as [Hs [Ht Hm']].
  repeat split; assumption.
Qed.

Lemma rows_are_chronological_witness :
  exists rows r,
    V2.run_scenario small_deal 2 1.5 6 = Ok rows /\
    nth_error rows 17 = Some r /\
    V2.Year r = 5%Z /\ V2.Quarter r = 2%Z /\ V2.Scenario r = 3%nat.
Proof.
  destruct (small_deal_runs 2 1.5 6) as [rows [E L]].
  destruct (nth_error rows 17) as [r|] eqn:En.
  - exists rows, r. split; [exact E|]. split; [exact En|].
    destruct (rows_are_chronological small_deal 2 1.5 6 rows E) as [_ H].
    destruct (H 17%nat r En) as [Hy [Hq [Hs _]]].
    repeat split; assumption.
  - apply nth_error_None in En. rewrite L in En. exfalso. lia.
Defined.

(** ** The replenishment years *)

Section V2_replenishment.

Variable d : deal.
Variable i : nat.
Variable stress : Q.
Variable trigger_time : Z.

(** While only replenishment quarters have run, nothing is paid back, the
    notional and the latch rest, and the exposure has lost the same amount
    each quarter. *)
Lemma replenishment_along_run (ps : list (Z * Z)) :
  forall (st stf : V2.state) (rows : list V2.period) (n : nat)
         (r : V2.period),
    V2.run_periods d i stress trigger_time ps st = Ok (stf, rows) ->
    nth_error rows n = Some r ->
    amortised (firstn (S n) ps) = 0%nat ->
    V2.Amortisation_Type r = Replenishment /\
    V2.principal_payment r = 0 /\
    V2.Quarterly_Cashflow r = V2.quarterly_coupon r /\
    V2.Losses r
      = V2.remaining_notional st * annual_loss_rate d * stress / V2.qpy /\
    V2.Tranche_Exposure r ==
      V2.tranche_exposure st
      - inject_Z (Z.of_nat (S n))
        * (V2.remaining_notional st * annual_loss_rate d * stress / V2.qpy).
Proof.
  induction ps as [|yq ps IH]; intros st stf rows n r H Hn Ha.
  - simpl in H. inversion H; subst. destruct n; discriminate.
  - apply run_periods_cons_inv in H as [s1 [r0 [rs [H1 [H2 ->]]]]].
    rewrite firstn_cons, amortised_cons in Ha.
    destruct (fst yq <=? V2.replenishment_period)%Z eqn:Ey; [|discriminate].
    apply Z.leb_le in Ey.
    apply step_Ok_inv in H1 as [w [rate [Hw [_ [Hs1 Hr0]]]]].
    apply waterfall_cases in Hw
      as [[_ ->] | [[Hy _] | [Hy _]]]; [|lia|lia].
    destruct n as [|n].
    + simpl in Hn. inversion Hn; subst r0 r.
      cbn [V2.Amortisation_Type V2.principal_payment V2.Quarterly_Cashflow
           V2.quarterly_coupon V2.Losses V2.Tranche_Exposure
           V2.w_amortisation_type V2.w_principal_payment
           V2.w_quarterly_cashflow V2.w_quarterly_coupon
           V2.w_tranche_exposure].
      repeat split; try reflexivity.
      change (inject_Z (Z.of_nat 1)) with 1. quarter_arith. ring.
    + simpl in Hn. subst s1.
      destruct (IH _ _ _ n r H2 Hn Ha) as [Ht [Hp [Hc [Hl He]]]].
      cbn [V2.remaining_notional V2.tranche_exposure V2.w_remaining_notional
           V2.w_tranche_exposure] in Hl, He.
      repeat split; try assumption.
      rewrite He. rewrite (Nat2Z.inj_succ (S n)). unfold Z.succ.
      rewrite inject_Z_plus. change (inject_Z 1) with 1.
      quarter_arith. ring.
Qed.

End V2_replenishment.

Lemma amortised_replenishment (n : nat) :
  (n < 12)%nat -> amortised (firstn (S n) V2.periods) = 0%nat.
Proof.
  intro Hn. do 12 (destruct n as [|n]; [reflexivity|]). lia.
Qed.

(** During the twelve replenishment quarters a scenario pays no principal,
    its cash flow is the coupon alone, the losses are the same each quarter
    (notional_amount x annual_loss_rate x stress / 4) and after quarter n + 1
    the exposure is the tranche size less n + 1 times these losses. *)
Theorem replenishment_rows (d : deal) (i : nat) (stress : Q)
    (trigger_time : Z) (rows : list V2.period) (n : nat) (r : V2.period) :
  V2.run_scenario d i stress trigger_time = Ok rows ->
  nth_error rows n = Some r ->
  (n < 12)%nat ->
  V2.Amortisation_Type r = Replenishment /\
  V2.principal_payment r = 0 /\
  V2.Quarterly_Cashflow r = V2.quarterly_coupon r /\
  V2.Losses r ==
    notional_amount d * annual_loss_rate d * stress
    / inject_Z V2.quarters_per_year /\
  V2.Tranche_Exposure r ==
    tranche_size d
    - inject_Z (Z.of_nat (S n))
      * (notional_amount d * annual_loss_rate d * stress
         / inject_Z V2.quarters_per_year).
Proof.
  intros H Hn Hlt. apply run_scenario_Ok_inv in H as [stf H].
  destruct (replenishment_along_run _ _ _ _ _ _ _ _ _ _ H Hn
              (amortised_replenishment n Hlt)) as [Ht [Hp [Hc [Hl He]]]].
  repeat split; try assumption.
  rewrite Hl. reflexivity.
Qed.

Lemma replenishment_rows_witness :
  exists rows r,
    V2.run_scenario example_deal_v2 0 1 4 = Ok rows /\
    nth_error rows 11 = Some r /\
    V2.Amortisation_Type r = Replenishment /\
    V2.Tranche_Exposure r == 49100000.
Proof.
  destruct (example_deal_v2_runs 0 1 4) as [rows [E L]].
  destruct (nth_error rows 11) as [r|] eqn:En.
  - exists rows, r. split; [exact E|]. split; [exact En|].
    assert (Hlt : (11 < 12)%nat) by lia.
    destruct (replenishment_rows example_deal_v2 0 1 4 rows 11 r E En Hlt)
      as [Ht [_ [_ [_ He]]]].
    split; [exact Ht|]. rewrite He. reflexivity.
  - apply nth_error_None in En. rewrite L in En. exfalso. lia.
Defined.

(** ** The two PnL columns *)

Section V2_pnl.

Variable d : deal.
Variable i : nat.
Variable stress : Q.
Variable trigger_time : Z.

Lemma pnl_along_run (ps : list (Z * Z)) :
  forall (st stf : V2.state) (rows : list V2.period) (n : nat)
         (r : V2.period),
    V2.run_periods d i stress trigger_time ps st = Ok (stf, rows) ->
    nth_error rows n = Some r ->
    V2.PnL r == V2.pnl st + Qsum (cashflows_upto (S n) rows).
Proof.
  induction ps as [|yq ps IH]; intros st stf rows n r H Hn.
  - simpl in H. inversion H; subst. destruct n; discriminate.
  - apply run_periods_cons_inv in H as [s1 [r0 [rs [H1 [H2 ->]]]]].
    apply step_Ok_inv in H1 as [w [rate [_ [_ [Hs1 Hr0]]]]].
    unfold cashflows_upto. rewrite firstn_cons. simpl map. simpl Qsum.
    destruct n as [|n].
    + simpl in Hn. inversion Hn; subst r0 r. simpl. ring.
    + simpl in Hn. rewrite (IH _ _ _ n r H2 Hn).
      subst s1 r0. unfold cashflows_upto. simpl. ring.
Qed.



End V2_pnl.

(** The PnL column is the running sum of the cash flows on top of the
    price paid: row n records - cln_price plus the cash flows of rows 0
    to n. *)
Theorem pnl_is_running_sum (d : deal) (i : nat) (stress : Q)
    (trigger_time : Z) (rows : list V2.period) (n : nat) (r : V2.period) :
  V2.run_scenario d i stress trigger_time = Ok rows ->
  nth_error rows n = Some r ->
  V2.PnL r == - cln_price d + Qsum (cashflows_upto (S n) rows).
Proof.
  intros H Hn. apply run_scenario_Ok_inv in H as [stf H].
  exact (pnl_along_run _ _ _ _ _ _ _ _ _ _ H Hn).
Qed.

Lemma pnl_is_running_sum_witness :
  exists rows r,
    V2.run_scenario small_deal 0 1 4 = Ok rows /\
    nth_error rows 20 = Some r /\
    V2.PnL r == - cln_price small_deal + Qsum (cashflows_upto 21 rows).
Proof.
  destruct (small_deal_runs 0 1 4) as [rows [E L]].
  destruct (nth_error rows 20) as [r|] eqn:En.
  - exists rows, r. split; [exact E|]. split; [exact En|].
    exact (pnl_is_running_sum small_deal 0 1 4 rows 20 r E En).
  - apply nth_error_None in En. rewrite L in En. exfalso. lia.
Defined.






(** ** When a scenario returns and when it divides by zero *)

Section V2_outcome.

Variable d : deal.
Variable i : nat.
Variable stress : Q.
Variable trigger_time : Z.

Lemma run_periods_app (ps1 ps2 : list (Z * Z)) :
  forall st : V2.state,
    V2.run_periods d i stress trigger_time (ps1 ++ ps2) st =
      (sr1 <- V2.run_periods d i stress trigger_time ps1 st ;;
       sr2 <- V2.run_periods d i stress trigger_time ps2 (fst sr1) ;;
       Ok (fst sr2, snd sr1 ++ snd sr2)).
Proof.
  induction ps1 as [|yq ps1 IH]; intro st.
  - simpl app. simpl V2.run_periods at 2. rewrite bind_Ok. simpl fst.
    destruct (V2.run_periods d i stress trigger_time ps2 st) as [[s rs]|e];
      reflexivity.
  - simpl app. simpl V2.run_periods.
    destruct (V2.step d i stress trigger_time yq st) as [[s1 r]|e];
      [|reflexivity].
    rewrite !bind_Ok. simpl fst. simpl snd. rewrite IH.
    destruct (V2.run_periods d i stress trigger_time ps1 s1) as [[s2 rs]|e];
      [|reflexivity].
    rewrite !bind_Ok. simpl fst. simpl snd.
    destruct (V2.run_periods d i stress trigger_time ps2 s2) as [[s3 rs']|e];
      reflexivity.
Qed.

(** A replenishment quarter needs nothing but a rate. *)
Lemma replenishment_step_total (yq : Z * Z) (st : V2.state) :
  risk_free_rates d <> [] ->
  (1 <= fst yq <= V2.replenishment_period)%Z ->
  exists st' r,
    V2.step d i stress trigger_time yq st = Ok (st', r) /\
    V2.remaining_notional st' = V2.remaining_notional st /\
    V2.sequential_mode st' = V2.sequential_mode st.
Proof.
  intros Hr [Hy1 Hy3]. unfold V2.step, V2.waterfall; cbv zeta.
  apply Z.leb_le in Hy3. rewrite Hy3. rewrite bind_Ok.
  destruct (rate_lookup_total (risk_free_rates d) (fst yq) Hr Hy1)
    as [rate Hrate].
  rewrite Hrate, bind_Ok.
  eexists; eexists. split; [reflexivity|]. split; reflexivity.
Qed.

Lemma replenishment_run_total (ps : list (Z * Z)) :
  risk_free_rates d <> [] ->
  Forall (fun yq => (1 <= fst yq <= V2.replenishment_period)%Z) ps ->
  forall st : V2.state,
    exists stf rows,
      V2.run_periods d i stress trigger_time ps st = Ok (stf, rows) /\
      V2.remaining_notional stf = V2.remaining_notional st /\
      V2.sequential_mode stf = V2.sequential_mode st.
Proof.
  intro Hr. induction ps as [|yq ps IH]; intros Hy st.
  - exists st, []. repeat split; reflexivity.
  - inversion Hy as [|? ? Hy1 Hy2]; subst.
    destruct (replenishment_step_total yq st Hr Hy1)
      as [s1 [r [H1 [Hn1 Hs1]]]].
    destruct (IH Hy2 s1) as [stf [rows [H2 [Hn2 Hs2]]]].
    exists stf, (r :: rows). split; [|split; congruence].
    simpl. rewrite H1, bind_Ok. simpl fst. rewrite H2, bind_Ok. reflexivity.
Qed.

(** Past replenishment, in the trigger year or with the latch set, a
    quarter takes the Sequential branch, which divides by nothing but 4. *)
Lemma sequential_step_total (yq : Z * Z) (st : V2.state) :
  risk_free_rates d <> [] ->
  (V2.replenishment_period < fst yq)%Z ->
  fst yq = trigger_time \/ V2.sequential_mode st = true ->
  exists st' r,
    V2.step d i stress trigger_time yq st = Ok (st', r) /\
    V2.sequential_mode st' = true.
Proof.
  intros Hr Hy Hc. unfold V2.step, V2.waterfall; cbv zeta.
  assert (Hy' : (fst yq <=? V2.replenishment_period)%Z = false)
    by (apply Z.leb_gt; exact Hy).
  rewrite Hy'.
  assert (Hm : (if (fst yq =? trigger_time)%Z then true
                else V2.sequential_mode st) = true).
  { destruct Hc as [Hc | Hc].
    - apply Z.eqb_eq in Hc. now rewrite Hc.
    - rewrite Hc. now destruct (fst yq =? trigger_time)%Z. }
  rewrite Hm. rewrite bind_Ok.
  destruct (rate_lookup_total (risk_free_rates d) (fst yq) Hr)
    as [rate Hrate]; [unfold V2.replenishment_period in Hy; lia|].
  rewrite Hrate, bind_Ok.
  eexists; eexists. split; reflexivity.
Qed.

Lemma latched_run_total (ps : list (Z * Z)) :
  risk_free_rates d <> [] ->
  Forall (fun yq => (V2.replenishment_period < fst yq)%Z) ps ->
  forall st : V2.state,
    V2.sequential_mode st = true \/
    (exists yq ps', ps = yq :: ps' /\ fst yq = trigger_time) ->
    exists stf rows,
      V2.run_periods d i stress trigger_time ps st = Ok (stf, rows).
Proof.
  intro Hr. induction ps as [|yq ps IH]; intros Hy st Hc.
  - exists st, []. reflexivity.
  - inversion Hy as [|? ? Hy1 Hy2]; subst.
    assert (Hc1 : fst yq = trigger_time \/ V2.sequential_mode st = true).
    { destruct Hc as [Hc | [yq' [ps' [E Ht]]]]; [now right|].
      inversion E; subst. now left. }
    destruct (sequential_step_total yq st Hr Hy1 Hc1) as [s1 [r [H1 Hs1]]].
    destruct (IH Hy2 s1 (or_introl Hs1)) as [stf [rows H2]].
    exists stf, (r :: rows).
    simpl. rewrite H1, bind_Ok. simpl fst. rewrite H2, bind_Ok. reflexivity.
Qed.

(** A pro-rata quarter on an exhausted notional. *)
Lemma pro_rata_step_raises (yq : Z * Z) (st : V2.state) :
  (V2.replenishment_period < fst yq)%Z ->
  fst yq <> trigger_time ->
  V2.sequential_mode st = false ->
  V2.remaining_notional st == 0 ->
  V2.step d i stress trigger_time yq st = Raise ZeroDivisionError.
Proof.
  intros Hy Ht Hs Hz. unfold V2.step, V2.waterfall; cbv zeta.
  apply Z.leb_gt in Hy. rewrite Hy.
  apply Z.eqb_neq in Ht. rewrite Ht, Hs.
  rewrite (py_div_zero _ _ Hz). reflexivity.
Qed.

Lemma periods_split :
  V2.periods = replenishment_periods ++ amortising_periods.
Proof. reflexivity. Qed.

Lemma replenishment_periods_years :
  Forall (fun yq : Z * Z => (1 <= fst yq <= V2.replenishment_period)%Z)
    replenishment_periods.
Proof.
  apply Forall_forall. intros yq Hin.
  assert (Hb : forallb (fun yq : Z * Z =>
                          (1 <=? fst yq)%Z
                          && (fst yq <=? V2.replenishment_period)%Z)
                 replenishment_periods = true) by reflexivity.
  rewrite forallb_forall in Hb. specialize (Hb yq Hin).
  apply andb_true_iff in Hb as [H1 H2].
  apply Z.leb_le in H1. apply Z.leb_le in H2. lia.
Qed.

Lemma amortising_periods_years :
  Forall (fun yq : Z * Z => (V2.replenishment_period < fst yq)%Z)
    amortising_periods.
Proof.
  apply Forall_forall. intros yq Hin.
  assert (Hb : forallb (fun yq : Z * Z =>
                          (V2.replenishment_period <? fst yq)%Z)
                 amortising_periods = true) by reflexivity.
  rewrite forallb_forall in Hb. apply Z.ltb_lt. now apply Hb.
Qed.

(** With trigger year 4 no quarter is ever Pro-rata, so nothing can make
    the scenario fail but a missing rate. *)
Lemma trigger_4_total :
  risk_free_rates d <> [] ->
  trigger_time = 4%Z ->
  exists rows,
    V2.run_scenario d i stress trigger_time = Ok rows /\
    length rows = 32%nat.
Proof.
  intros Hr Ht.
  destruct (replenishment_run_total replenishment_periods Hr
              replenishment_periods_years (V2.init_state d))
    as [s12 [rows1 [H1 _]]].
  destruct (latched_run_total amortising_periods Hr
              amortising_periods_years s12) as [stf [rows2 H2]].
  { right. exists (4, 1)%Z, (tl amortising_periods).
    split; [reflexivity | now rewrite Ht]. }
  assert (H : V2.run_periods d i stress trigger_time V2.periods
                (V2.init_state d) = Ok (stf, rows1 ++ rows2)).
  { rewrite periods_split, run_periods_app, H1, bind_Ok.
    simpl fst. rewrite H2, bind_Ok. reflexivity. }
  exists (rows1 ++ rows2). split.
  - unfold V2.run_scenario. rewrite H, bind_Ok. reflexivity.
  - now rewrite (run_periods_length _ _ _ _ _ _ _ _ H).
Qed.

(** With any other trigger year the quarters of year 4 are Pro-rata: the
    first divides by the notional, the second by the notional scaled
    once. *)
Lemma other_trigger_raises :
  risk_free_rates d <> [] ->
  trigger_time <> 4%Z ->
  notional_amount d == 0 \/ amortisation_rate d == 4 ->
  V2.run_scenario d i stress trigger_time = Raise ZeroDivisionError.
Proof.
  intros Hr Ht Hz.
  destruct (replenishment_run_total replenishment_periods Hr
              replenishment_periods_years (V2.init_state d))
    as [s12 [rows1 [H1 [Hn Hs]]]].
  simpl in Hn, Hs.
  assert (H : V2.run_periods d i stress trigger_time amortising_periods s12
              = Raise ZeroDivisionError).
  { change amortising_periods
      with ((4, 1)%Z :: (4, 2)%Z :: tl (tl amortising_periods)).
    destruct (Qeq_dec (notional_amount d) 0) as [Hz0 | Hnz].
    - apply run_periods_raise. apply pro_rata_step_raises.
      + reflexivity.
      + simpl. congruence.
      + exact Hs.
      + now rewrite Hn.
    - destruct Hz as [Hz | Hz]; [contradiction|].
      assert (Hnz12 : ~ V2.remaining_notional s12 == 0) by now rewrite Hn.
      destruct (step_total d i stress trigger_time (4, 1)%Z s12 Hr)
        as [s13 [r H13]]; [simpl; lia | exact Hnz12 |].
      simpl V2.run_periods. rewrite H13, bind_Ok. simpl fst.
      pose proof (step_remaining_notional _ _ _ _ _ _ _ _ H13) as Hn13.
      simpl in Hn13.
      apply step_regime in H13
        as [[Hy _] | [[_ [[Hc | Hc] _]] | [_ [_ [_ [_ Hs13]]]]]].
      + simpl in Hy. unfold V2.replenishment_period in Hy. lia.
      + simpl in Hc. congruence.
      + congruence.
      + rewrite (pro_rata_step_raises (4, 2)%Z s13).
        * reflexivity.
        * reflexivity.
        * simpl. congruence.
        * exact Hs13.
        * rewrite Hn13, Hz. quarter_arith. ring. }
  unfold V2.run_scenario.
  rewrite periods_split, run_periods_app, H1, bind_Ok.
  simpl fst. rewrite H. reflexivity.
Qed.

End V2_outcome.

(** Given a rate curve, a scenario fails exactly when its trigger year is
    not 4 and the notional is zero or the amortisation rate is 4 (the
    portfolio amortises in full in one quarter); it then fails with
    [ZeroDivisionError] in year 4.  In every other case it returns its 32
    rows. *)
Theorem run_scenario_outcome (d : deal) (i : nat) (stress : Q)
    (trigger_time : Z) :
  risk_free_rates d <> [] ->
  (trigger_time = 4%Z \/
   (~ notional_amount d == 0 /\ ~ amortisation_rate d == 4) ->
   exists rows,
     V2.run_scenario d i stress trigger_time = Ok rows /\
     length rows = 32%nat) /\
  (trigger_time <> 4%Z ->
   notional_amount d == 0 \/ amortisation_rate d == 4 ->
   V2.run_scenario d i stress trigger_time = Raise ZeroDivisionError).
Proof.
  intro Hr. split.
  - intros [Ht | [Hn Ha]].
    + now apply trigger_4_total.
    + now apply run_scenario_total.
  - intros Ht Hz. now apply other_trigger_raises.
Qed.

Lemma run_scenario_outcome_witness :
  (exists rows,
      V2.run_scenario full_amortisation_deal 0 1 4 = Ok rows /\
      length rows = 32%nat) /\
  V2.run_scenario full_amortisation_deal 1 1 5 = Raise ZeroDivisionError.
Proof.
  split.
  - apply (run_scenario_outcome full_amortisation_deal 0 1 4).
    + discriminate.
    + left. reflexivity.
  - apply (run_scenario_outcome full_amortisation_deal 1 1 5).
    + discriminate.
    + lia.
    + right. reflexivity.
Defined.

(** ** The whole call *)

Lemma py_index_nat_Ok {A : Type} (l : list A) (n : nat) (x : A) :
  py_index l (Z.of_nat n) = Ok x -> nth_error l n = Some x.
Proof.
  intro H. apply py_index_Ok_inv in H as [_ H].
  rewrite <- (Nat2Z.id n) at 1. apply H. lia.
Qed.

Lemma py_index_past_end {A : Type} (l : list A) (n : nat) :
  (length l <= n)%nat -> py_index l (Z.of_nat n) = Raise IndexError.
Proof.
  intro H. unfold py_index; cbv zeta.
  assert (E0 : (Z.of_nat n <? 0)%Z = false) by (apply Z.ltb_ge; lia).
  assert (E1 : (Z.of_nat (length l) <=? Z.of_nat n)%Z = true)
    by (apply Z.leb_le; lia).
  rewrite E0; cbv iota; rewrite E0, E1. reflexivity.
Qed.

Lemma scenarios_cons_inv (d : deal) (trigger_timings : list Z) (i : nat)
    (stress : Q) (rest : list Q) (rows : list V2.period) :
  V2.scenarios d trigger_timings i (stress :: rest) = Ok rows ->
  exists t table rows',
    nth_error trigger_timings i = Some t /\
    V2.run_scenario d i stress t = Ok table /\
    V2.scenarios d trigger_timings (S i) rest = Ok rows' /\
    rows = table ++ rows'.
Proof.
  rewrite scenarios_cons. intro H.
  apply bind_Ok_inv in H as [t [Ht H]].
  apply bind_Ok_inv in H as [table [H1 H]].
  apply bind_Ok_inv in H as [rows' [H2 H]].
  inversion H; subst.
  exists t, table, rows'. repeat split; try assumption.
  now apply py_index_nat_Ok.
Qed.

Lemma run_scenario_length (d : deal) (i : nat) (stress : Q)
    (trigger_time : Z) (rows : list V2.period) :
  V2.run_scenario d i stress trigger_time = Ok rows ->
  length rows = 32%nat.
Proof.
  intro H. apply run_scenario_Ok_inv in H as [stf H].
  exact (run_periods_length _ _ _ _ _ _ _ _ H).
Qed.

Lemma scenarios_tables (d : deal) (trigger_timings : list Z)
    (stress_scenarios : list Q) :
  forall (i : nat) (rows : list V2.period),
    V2.scenarios d trigger_timings i stress_scenarios = Ok rows ->
    exists tables,
      rows = concat tables /\
      length tables = length stress_scenarios /\
      forall (j : nat) (stress : Q),
        nth_error stress_scenarios j = Some stress ->
        exists t table,
          nth_error trigger_timings (i + j) = Some t /\
          nth_error tables j = Some table /\
          V2.run_scenario d (i + j) stress t = Ok table.
Proof.
  induction stress_scenarios as [|s rest IH]; intros i rows H.
  - simpl in H. inversion H; subst. exists []. repeat split.
    intros j stress Hj. destruct j; discriminate.
  - apply scenarios_cons_inv in H as [t [table [rows' [Ht [H1 [H2 ->]]]]]].
    destruct (IH _ _ H2) as [tables [-> [Hlen Hall]]].
    exists (table :: tables). split; [reflexivity|].
    split; [simpl; now rewrite Hlen|].
    intros j stress Hj. destruct j as [|j].
    + simpl in Hj. inversion Hj; subst stress.
      exists t, table. rewrite Nat.add_0_r. repeat split; assumption.
    + simpl in Hj. destruct (Hall j stress Hj) as [t' [table' [A [B C]]]].
      exists t', table'. rewrite Nat.add_succ_r. repeat split; assumption.
Qed.

Lemma concat_length_32 (tables : list (list V2.period)) :
  Forall (fun table => length table = 32%nat) tables ->
  length (concat tables) = (32 * length tables)%nat.
Proof.
  induction 1 as [|table tables Ht _ IH]; [reflexivity|].
  simpl concat. rewrite length_app, Ht, IH. simpl length. lia.
Qed.

(** A call that returns is all of its scenarios: the table is the tables
    of the scenarios one after the other in the order of
    [stress_scenarios], scenario j (from 0) being run under
    [trigger_timings[j]], 32 rows each.  So a call returns only if every
    one of its scenarios does. *)
Theorem table_is_concatenation (d : deal) (stress_scenarios : list Q)
    (trigger_timings : list Z) (rows : list V2.period) :
  V2.srt_stress_analysis d stress_scenarios trigger_timings = Ok rows ->
  exists tables,
    rows = concat tables /\
    length tables = length stress_scenarios /\
    length rows = (32 * length stress_scenarios)%nat /\
    forall (j : nat) (stress : Q),
      nth_error stress_scenarios j = Some stress ->
      exists t table,
        nth_error trigger_timings j = Some t /\
        nth_error tables j = Some table /\
        V2.run_scenario d j stress t = Ok table.
Proof.
  intro H. unfold V2.srt_stress_analysis in H.
  destruct (scenarios_tables _ _ _ _ _ H) as [tables [-> [Hlen Hall]]].
  exists tables. split; [reflexivity|]. split; [exact Hlen|].
  split; [|exact Hall].
  rewrite <- Hlen. apply concat_length_32.
  apply Forall_forall. intros table Hin.
  apply In_nth_error in Hin as [j Hj].
  assert (Hlt : (j < length stress_scenarios)%nat).
  { rewrite <- Hlen. apply nth_error_Some. congruence. }
  destruct (nth_error stress_scenarios j) as [s|] eqn:Es.
  - destruct (Hall j s Es) as [t [table' [_ [Ht Hrun]]]].
    simpl in Ht. rewrite Hj in Ht. inversion Ht; subst table'.
    exact (run_scenario_length _ _ _ _ _ Hrun).
  - apply nth_error_None in Es. lia.
Qed.

Lemma table_is_concatenation_witness :
  exists rows tables,
    V2.srt_stress_analysis small_deal [1; 2] [4; 5]%Z = Ok rows /\
    rows = concat tables /\ length rows = 64%nat.
Proof.
  destruct (scenarios_total small_deal [4; 5]%Z [1; 2]) with (i := 0%nat)
    as [rows [E _]].
  - discriminate.
  - intro H. vm_compute in H. discriminate H.
  - intro H. vm_compute in H. discriminate H.
  - simpl. lia.
  - destruct (table_is_concatenation small_deal [1; 2] [4; 5]%Z rows E)
      as [tables [Hc [_ [Hl _]]]].
    exists rows, tables. repeat split; assumption.
Defined.

Lemma scenarios_short (d : deal) (trigger_timings : list Z)
    (stress_scenarios : list Q) :
  risk_free_rates d <> [] ->
  ~ notional_amount d == 0 ->
  ~ amortisation_rate d == 4 ->
  forall i : nat,
    (i <= length trigger_timings)%nat ->
    (length trigger_timings < i + length stress_scenarios)%nat ->
    V2.scenarios d trigger_timings i stress_scenarios = Raise IndexError.
Proof.
  intros Hr Hn Ha.
  induction stress_scenarios as [|s rest IH]; intros i Hi Hlen.
  - simpl in Hlen. lia.
  - rewrite scenarios_cons.
    destruct (Nat.eq_dec i (length trigger_timings)) as [E | E].
    + rewrite (py_index_past_end trigger_timings i) by lia.
      reflexivity.
    + destruct (py_index_in_range trigger_timings (Z.of_nat i))
        as [t [Ht _]]; [lia|].
      rewrite Ht, bind_Ok.
      destruct (run_scenario_total d i s t Hr Ha Hn) as [rows [H1 _]].
      rewrite H1, bind_Ok.
      rewrite IH; [reflexivity | lia | simpl in Hlen; lia].
Qed.

(** With fewer trigger years than stress multipliers the call never
    returns a table, not even for the scenarios that have one: when each of
    those would have returned, it ends with the [IndexError] of
    [trigger_timings[i]]. *)
Theorem short_trigger_list_raises (d : deal) (stress_scenarios : list Q)
    (trigger_timings : list Z) :
  (length trigger_timings < length stress_scenarios)%nat ->
  (forall rows,
      V2.srt_stress_analysis d stress_scenarios trigger_timings <> Ok rows) /\
  (risk_free_rates d <> [] ->
   ~ notional_amount d == 0 ->
   ~ amortisation_rate d == 4 ->
   V2.srt_stress_analysis d stress_scenarios trigger_timings
     = Raise IndexError).
Proof.
  intro Hlen. split.
  - intros rows H. unfold V2.srt_stress_analysis in H.
    destruct (scenarios_tables _ _ _ _ _ H) as [tables [_ [_ Hall]]].
    destruct (nth_error stress_scenarios (length trigger_timings))
      as [s|] eqn:Es.
    + destruct (Hall _ s Es) as [t [_ [Ht _]]].
      simpl in Ht.
      assert (Hnone : nth_error trigger_timings (length trigger_timings)
                      = None) by (apply nth_error_None; lia).
      congruence.
    + apply nth_error_None in Es. lia.
  - intros Hr Hn Ha. unfold V2.srt_stress_analysis.
    apply scenarios_short; try assumption; simpl; lia.
Qed.

Lemma short_trigger_list_raises_witness :
  V2.srt_stress_analysis example_deal_v2 example_stress_scenarios
    [4; 5; 6]%Z = Raise IndexError.
Proof.
  apply (short_trigger_list_raises example_deal_v2 example_stress_scenarios
           [4; 5; 6]%Z).
  - simpl. lia.
  - discriminate.
  - intro H. vm_compute in H. discriminate H.
  - intro H. vm_compute in H. discriminate H.
Defined.

(** ** The regime column in closed form *)

Lemma regime_trace_untriggered (t : Z) (seq : bool) (ps : list (Z * Z)) :
  Forall (fun yq => (V2.replenishment_period < fst yq)%Z -> fst yq <> t) ps ->
  regime_trace t seq ps =
    map (fun yq => if (fst yq <=? V2.replenishment_period)%Z
                   then Replenishment
                   else if seq then Sequential else ProRata) ps.
Proof.
  induction 1 as [|yq ps Hyq _ IH]; [reflexivity|].
  simpl. destruct (fst yq <=? V2.replenishment_period)%Z eqn:Ey.
  - now rewrite IH.
  - apply Z.leb_gt in Ey. apply Hyq in Ey. apply Z.eqb_neq in Ey.
    rewrite Ey. destruct seq; now rewrite IH.
Qed.

Lemma regime_trace_periods (t : Z) (n : nat) :
  (n < 32)%nat ->
  nth_error (regime_trace t false V2.periods) n =
    Some (if (Z.of_nat (n / 4) + 1 <=? V2.replenishment_period)%Z
          then Replenishment
          else if ((4 <=? t) && (t <=? Z.of_nat (n / 4) + 1))%Z%bool
               then Sequential else ProRata).
Proof.
  intro Hn.
  destruct (Z.eq_dec t 4) as [-> | H4];
    [do 32 (destruct n as [|n]; [reflexivity|]); lia|].
  destruct (Z.eq_dec t 5) as [-> | H5];
    [do 32 (destruct n as [|n]; [reflexivity|]); lia|].
  destruct (Z.eq_dec t 6) as [-> | H6];
    [do 32 (destruct n as [|n]; [reflexivity|]); lia|].
  destruct (Z.eq_dec t 7) as [-> | H7];
    [do 32 (destruct n as [|n]; [reflexivity|]); lia|].
  destruct (Z.eq_dec t 8) as [-> | H8];
    [do 32 (destruct n as [|n]; [reflexivity|]); lia|].
  rewrite regime_trace_untriggered.
  - rewrite nth_error_map, (periods_nth n Hn). cbn [option_map fst].
    f_equal.
    destruct (Z.of_nat (n / 4) + 1 <=? V2.replenishment_period)%Z;
      [reflexivity|].
    assert (Hy : (Z.of_nat (n / 4) + 1 <= 8)%Z).
    { assert (n / 4 < 8)%nat by (apply Nat.Div0.div_lt_upper_bound; lia).
      lia. }
    destruct (4 <=? t)%Z eqn:E1; [|reflexivity].
    destruct (t <=? Z.of_nat (n / 4) + 1)%Z eqn:E2; [|reflexivity].
    apply Z.leb_le in E1. apply Z.leb_le in E2. lia.
  - apply Forall_forall. intros yq Hin Hy Heq.
    assert (Hb : forallb (fun yq : Z * Z => (fst yq <=? 8)%Z) V2.periods
                 = true) by reflexivity.
    rewrite forallb_forall in Hb. specialize (Hb yq Hin).
    apply Z.leb_le in Hb. unfold V2.replenishment_period in Hy. lia.
Qed.

(** The regime of a row follows from its year and the trigger year alone:
    Replenishment up to year 3; after that Sequential when the trigger year
    lies in 4..year, Pro-rata otherwise.  A trigger year below 4 or above 8
    never takes effect. *)
Theorem regime_closed_form (d : deal) (i : nat) (stress : Q)
    (trigger_time : Z) (rows : list V2.period) (n : nat) (r : V2.period) :
  V2.run_scenario d i stress trigger_time = Ok rows ->
  nth_error rows n = Some r ->
  V2.Amortisation_Type r =
    if (V2.Year r <=? V2.replenishment_period)%Z then Replenishment
    else if ((4 <=? trigger_time) && (trigger_time <=? V2.Year r))%Z%bool
         then Sequential else ProRata.
Proof.
  intros H Hn. apply run_scenario_Ok_inv in H as [stf H].
  pose proof (run_periods_length _ _ _ _ _ _ _ _ H) as Hlen.
  assert (Hlt : (n < 32)%nat).
  { assert (Hs : nth_error rows n <> None) by congruence.
    apply nth_error_Some in Hs. rewrite Hlen in Hs. exact Hs. }
  destruct (run_periods_labels _ _ _ _ _ _ _ _ H) as [Hm _].
  assert (Hyq : nth_error V2.periods n = Some (V2.Year r, V2.Quarter r)).
  { rewrite <- Hm. rewrite nth_error_map, Hn. reflexivity. }
  rewrite (periods_nth n Hlt) in Hyq.
  assert (Hy : V2.Year r = (Z.of_nat (n / 4) + 1)%Z) by congruence.
  pose proof (regimes_of_run_periods _ _ _ _ _ _ _ _ H) as Hreg.
  assert (Hr : nth_error (regime_trace trigger_time false V2.periods) n
               = Some (V2.Amortisation_Type r)).
  { change false with (V2.sequential_mode (V2.init_state d)).
    rewrite <- Hreg. unfold regimes_v2.
    rewrite nth_error_map, Hn. reflexivity. }
  rewrite (regime_trace_periods trigger_time n Hlt) in Hr.
  rewrite Hy. congruence.
Qed.

Lemma regime_closed_form_witness :
  exists rows r,
    V2.run_scenario example_deal_v2 3 2.5 7 = Ok rows /\
    nth_error rows 24 = Some r /\
    V2.Year r = 7%Z /\
    V2.Amortisation_Type r = Sequential.
Proof.
  destruct (example_deal_v2_runs 3 2.5 7) as [rows [E L]].
  destruct (nth_error rows 24) as [r|] eqn:En.
  - exists rows, r. split; [exact E|]. split; [exact En|].
    pose proof (regime_closed_form example_deal_v2 3 2.5 7 rows 24 r E En)
      as Hreg.
    apply run_scenario_Ok_inv in E as [stf E].
    destruct (run_periods_labels _ _ _ _ _ _ _ _ E) as [Hm _].
    assert (Hyq : nth_error V2.periods 24 = Some (V2.Year r, V2.Quarter r)).
    { rewrite <- Hm. rewrite nth_error_map, En. reflexivity. }
    rewrite (periods_nth 24) in Hyq by lia.
    change (Z.of_nat (24 / 4) + 1)%Z with 7%Z in Hyq.
    assert (Hy : V2.Year r = 7%Z) by congruence.
    split; [exact Hy|]. rewrite Hreg, Hy. reflexivity.
  - apply nth_error_None in En. rewrite L in En. exfalso. lia.
Defined.

Lemma pro_rata_period_effect_witness :
  exists st' r,
    V2.step small_deal 0 1 5 (4, 1)%Z pro_rata_state = Ok (st', r) /\
    V2.Amortisation_Type r = ProRata /\
    V2.principal_payment r ==
      V2.tranche_exposure pro_rata_state * amortisation_rate small_deal
      / inject_Z V2.quarters_per_year.
Proof.
  eexists; eexists.
  split; [vm_compute; reflexivity|].
  split; [reflexivity|].
  exact (proj1 (proj2 (pro_rata_period_effect small_deal 0 1 5 (4, 1)%Z
                         pro_rata_state _ _ eq_refl eq_refl))).
Defined.

(** * Further properties of version 1.0 *)

Lemma In_py_range (lo hi k : Z) :
  In k (py_range lo hi) <-> (lo <= k < hi)%Z.
Proof.
  unfold py_range. rewrite in_map_iff. split.
  - intros [n [<- Hn]]. apply in_seq in Hn. lia.
  - intros [H1 H2]. exists (Z.to_nat (k - lo)). split; [lia|].
    apply in_seq. lia.
Qed.

Section V1_step.

Variable d : deal.
Variable i : nat.
Variable stress : Q.
Variable trigger_time : Z.

Local Abbreviation v1_losses st :=
  (V1.remaining_notional st * annual_loss_rate d * stress).

Lemma v1_step_facts (year : Z) (st st' : V1.state) (r : V1.row) :
  V1.step d i stress trigger_time year st = Ok (st', r) ->
  V1.Year r = year /\
  V1.Scenario r = S i /\
  V1.Trigger_Time r = trigger_time /\
  V1.Stress_Multiplier r = stress /\
  V1.Losses r = v1_losses st /\
  V1.remaining_notional st' =
    (if (V1.replenishment_period <? year)%Z
     then V1.remaining_notional st * (1 - amortisation_rate d)
     else V1.remaining_notional st) /\
  V1.Remaining_Notional r = V1.remaining_notional st' /\
  V1.tranche_exposure st' =
    (if ((V1.replenishment_period <? year) && (year =? trigger_time))%Z%bool
     then V1.tranche_exposure st - v1_losses st - v1_losses st
     else V1.tranche_exposure st - v1_losses st) /\
  V1.Tranche_Exposure r = V1.tranche_exposure st' /\
  V1.Annual_Cashflow r = V1.tranche_exposure st' * coupon_rate d /\
  V1.pnl st' = V1.pnl st + V1.Annual_Cashflow r /\
  V1.PnL r = V1.pnl st' /\
  V1.Amortisation_Type r =
    (if (V1.replenishment_period <? year)%Z
     then (if (year =? trigger_time)%Z then Sequential else ProRata)
     else Replenishment) /\
  exists fs,
    V1.growth_factors (risk_free_rates d) (py_range 1 (year + 1)) = Ok fs /\
    V1.discounted_pnl st' =
      V1.option_add (V1.discounted_pnl st)
        (V1.np_div (V1.Annual_Cashflow r) (V1.np_prod fs)) /\
    V1.Discounted_PnL r = V1.discounted_pnl st'.
Proof.
  unfold V1.step; cbv zeta. intro H.
  apply bind_Ok_inv in H as [fs [Hfs H]].
  inversion H; subst; clear H. unfold V1.regime_of. simpl.
  repeat split; try reflexivity.
  - destruct (V1.replenishment_period <? year)%Z; [|reflexivity].
    destruct (year =? trigger_time)%Z; reflexivity.
  - destruct (V1.replenishment_period <? year)%Z; [|reflexivity].
    destruct (year =? trigger_time)%Z; reflexivity.
  - exists fs. repeat split. exact Hfs.
Qed.

Lemma v1_run_years_cons_inv (y : Z) (ys : list Z) (st stf : V1.state)
    (rows : list V1.row) :
  V1.run_years d i stress trigger_time (y :: ys) st = Ok (stf, rows) ->
  exists s1 r rs,
    V1.step d i stress trigger_time y st = Ok (s1, r) /\
    V1.run_years d i stress trigger_time ys s1 = Ok (stf, rs) /\
    rows = r :: rs.
Proof.
  simpl. intro H.
  apply bind_Ok_inv in H as [[s1 r] [H1 H]].
  apply bind_Ok_inv in H as [[s2 rs] [H2 H]].
  simpl in *. inversion H; subst.
  exists s1, r, rs. repeat split; assumption.
Qed.

Lemma v1_run_years_length (ys : list Z) :
  forall (st stf : V1.state) (rows : list V1.row),
    V1.run_years d i stress trigger_time ys st = Ok (stf, rows) ->
    length rows = length ys.
Proof.
  induction ys as [|y ys IH]; intros st stf rows H.
  - simpl in H. inversion H. reflexivity.
  - apply v1_run_years_cons_inv in H as [s1 [r [rs [_ [H2 ->]]]]].
    simpl. f_equal. eapply IH; eassumption.
Qed.

Lemma v1_run_scenario_Ok_inv (rows : list V1.row) :
  V1.run_scenario d i stress trigger_time = Ok rows ->
  exists stf,
    V1.run_years d i stress trigger_time V1.years (V1.init_state d)
      = Ok (stf, rows).
Proof.
  unfold V1.run_scenario. intro H.
  apply bind_Ok_inv in H as [[stf rs] [H1 H]].
  simpl in H. inversion H; subst. exists stf. exact H1.
Qed.

(** *** The rate lookups of a year *)

Lemma growth_factors_total (rates : list Q) (ys : list Z) :
  Forall (fun y => (1 <= y <= Z.of_nat (length rates))%Z) ys ->
  exists fs, V1.growth_factors rates ys = Ok fs.
Proof.
  induction 1 as [|y ys Hy _ [fs IH]].
  - exists []. reflexivity.
  - destruct (py_index_in_range rates (y - 1)) as [x [Hx _]]; [lia|].
    exists ((1 + x) :: fs). simpl. rewrite Hx, bind_Ok, IH. reflexivity.
Qed.

Lemma growth_factors_raise (rates : list Q) (ys : list Z) :
  Forall (fun y => (1 <= y)%Z) ys ->
  Exists (fun y => (Z.of_nat (length rates) < y)%Z) ys ->
  V1.growth_factors rates ys = Raise IndexError.
Proof.
  induction 1 as [|y ys Hy Hys IH]; intro Hex.
  - inversion Hex.
  - simpl.
    destruct (Z_lt_dec (Z.of_nat (length rates)) y) as [Hbig | Hok].
    + replace (y - 1)%Z with (Z.of_nat (Z.to_nat (y - 1))) by lia.
      rewrite py_index_past_end by lia. reflexivity.
    + destruct (py_index_in_range rates (y - 1)) as [x [Hx _]]; [lia|].
      rewrite Hx, bind_Ok.
      inversion Hex as [? ? Hh | ? ? Ht]; subst; [contradiction|].
      rewrite (IH Ht). reflexivity.
Qed.

Lemma v1_step_total (year : Z) (st : V1.state) :
  (1 <= year <= Z.of_nat (length (risk_free_rates d)))%Z ->
  exists st' r, V1.step d i stress trigger_time year st = Ok (st', r).
Proof.
  intro Hy. unfold V1.step; cbv zeta.
  destruct (growth_factors_total (risk_free_rates d)
              (py_range 1 (year + 1))) as [fs Hfs].
  { apply Forall_forall. intros k Hk. apply In_py_range in Hk. lia. }
  rewrite Hfs, bind_Ok. eexists; eexists; reflexivity.
Qed.

Lemma v1_step_raise (year : Z) (st : V1.state) :
  (1 <= year)%Z ->
  (Z.of_nat (length (risk_free_rates d)) < year)%Z ->
  V1.step d i stress trigger_time year st = Raise IndexError.
Proof.
  intros H1 Hy. unfold V1.step; cbv zeta.
  rewrite growth_factors_raise; [reflexivity | |].
  - apply Forall_forall. intros k Hk. apply In_py_range in Hk. lia.
  - apply Exists_exists. exists year. split; [|exact Hy].
    apply In_py_range. lia.
Qed.

Lemma v1_run_years_total (ys : list Z) :
  Forall (fun y => (1 <= y <= Z.of_nat (length (risk_free_rates d)))%Z) ys ->
  forall st : V1.state,
    exists stf rows,
      V1.run_years d i stress trigger_time ys st = Ok (stf, rows).
Proof.
  induction 1 as [|y ys Hy _ IH]; intro st.
  - exists st, []. reflexivity.
  - destruct (v1_step_total y st Hy) as [s1 [r H1]].
    destruct (IH s1) as [stf [rows H2]].
    exists stf, (r :: rows).
    simpl. rewrite H1, bind_Ok. simpl fst. rewrite H2, bind_Ok. reflexivity.
Qed.

Lemma v1_run_years_raise (ys : list Z) :
  Forall (fun y => (1 <= y)%Z) ys ->
  Exists (fun y => (Z.of_nat (length (risk_free_rates d)) < y)%Z) ys ->
  forall st : V1.state,
    V1.run_years d i stress trigger_time ys st = Raise IndexError.
Proof.
  induction 1 as [|y ys Hy Hys IH]; intros Hex st.
  - inversion Hex.
  - simpl.
    destruct (Z_lt_dec (Z.of_nat (length (risk_free_rates d))) y)
      as [Hbig | Hok].
    + rewrite (v1_step_raise y st Hy Hbig). reflexivity.
    + destruct (v1_step_total y st) as [s1 [r H1]]; [lia|].
      rewrite H1, bind_Ok. simpl fst.
      inversion Hex as [? ? Hh | ? ? Ht]; subst; [contradiction|].
      rewrite (IH Ht s1). reflexivity.
Qed.

End V1_step.

Lemma v1_years_range (y : Z) : In y V1.years <-> (1 <= y <= 8)%Z.
Proof.
  unfold V1.years, V1.maturity. rewrite In_py_range. lia.
Qed.

(** Version 1.0 looks the rates up without the clamp of version 2.0: a
    scenario returns its 8 rows when the curve lists at least 8 rates and
    ends with [IndexError] when it lists fewer. *)
Theorem v1_needs_a_rate_per_year (d : deal) (i : nat) (stress : Q)
    (trigger_time : Z) :
  ((8 <= length (risk_free_rates d))%nat ->
   exists rows,
     V1.run_scenario d i stress trigger_time = Ok rows /\
     length rows = 8%nat) /\
  ((length (risk_free_rates d) < 8)%nat ->
   V1.run_scenario d i stress trigger_time = Raise IndexError).
Proof.
  split; intro Hlen.
  - destruct (v1_run_years_total d i stress trigger_time V1.years)
      with (st := V1.init_state d) as [stf [rows H]].
    { apply Forall_forall. intros y Hy. apply v1_years_range in Hy. lia. }
    exists rows. split.
    + unfold V1.run_scenario. rewrite H, bind_Ok. reflexivity.
    + now rewrite (v1_run_years_length _ _ _ _ _ _ _ _ H).
  - unfold V1.run_scenario.
    rewrite v1_run_years_raise; [reflexivity | |].
    + apply Forall_forall. intros y Hy. apply v1_years_range in Hy. lia.
    + apply Exists_exists. exists 8%Z. split; [|lia].
      apply v1_years_range. lia.
Qed.

Lemma v1_needs_a_rate_per_year_witness :
  (exists rows,
      V1.run_scenario example_deal_v1 0 1 4 = Ok rows /\
      length rows = 8%nat) /\
  V1.run_scenario v1_short_curve_deal 0 1 4 = Raise IndexError.
Proof.
  split.
  - apply (v1_needs_a_rate_per_year example_deal_v1 0 1 4). simpl. lia.
  - apply (v1_needs_a_rate_per_year v1_short_curve_deal 0 1 4). simpl. lia.
Defined.

(** ** The yearly table *)

Section V1_run.

Variable d : deal.
Variable i : nat.
Variable stress : Q.
Variable trigger_time : Z.

Lemma v1_rows_years (ys : list Z) :
  forall (st stf : V1.state) (rows : list V1.row),
    V1.run_years d i stress trigger_time ys st = Ok (stf, rows) ->
    map V1.Year rows = ys.
Proof.
  induction ys as [|y ys IH]; intros st stf rows H.
  - simpl in H. inversion H. reflexivity.
  - apply v1_run_years_cons_inv in H as [s1 [r [rs [H1 [H2 ->]]]]].
    apply v1_step_facts in H1 as [Hy _].
    simpl. rewrite Hy. f_equal. eapply IH; eassumption.
Qed.

Lemma v1_regime_along_run (ys : list Z) :
  forall (st stf : V1.state) (rows : list V1.row),
    V1.run_years d i stress trigger_time ys st = Ok (stf, rows) ->
    Forall (fun r =>
              V1.Amortisation_Type r =
                if (V1.replenishment_period <? V1.Year r)%Z
                then (if (V1.Year r =? trigger_time)%Z
                      then Sequential else ProRata)
                else Replenishment) rows.
Proof.
  induction ys as [|y ys IH]; intros st stf rows H.
  - simpl in H. inversion H. constructor.
  - apply v1_run_years_cons_inv in H as [s1 [r [rs [H1 [H2 ->]]]]].
    constructor; [|eapply IH; eassumption].
    apply v1_step_facts in H1
      as [Hy [_ [_ [_ [_ [_ [_ [_ [_ [_ [_ [_ [Ht _]]]]]]]]]]]]].
    rewrite Hy. exact Ht.
Qed.

(** The notional a yearly row records: scaled once for each year past
    replenishment run so far. *)
Lemma v1_notional_along_run (ys : list Z) :
  forall (st stf : V1.state) (rows : list V1.row) (n : nat) (r : V1.row),
    V1.run_years d i stress trigger_time ys st = Ok (stf, rows) ->
    nth_error rows n = Some r ->
    V1.Remaining_Notional r ==
      V1.remaining_notional st
      * (1 - amortisation_rate d)
        ^ Z.of_nat (length (filter (fun y => (V1.replenishment_period <? y)%Z)
                              (firstn (S n) ys))).
Proof.
  induction ys as [|y ys IH]; intros st stf rows n r H Hn.
  - simpl in H. inversion H; subst. destruct n; discriminate.
  - apply v1_run_years_cons_inv in H as [s1 [r0 [rs [H1 [H2 ->]]]]].
    apply v1_step_facts in H1
      as [_ [_ [_ [_ [_ [Hrn [Hrow _]]]]]]].
    rewrite firstn_cons. simpl filter.
    destruct n as [|n].
    + simpl in Hn. inversion Hn; subst r0. rewrite Hrow, Hrn.
      rewrite firstn_O. simpl filter.
      destruct (V1.replenishment_period <? y)%Z.
      * change (Z.of_nat (length [y])) with 1%Z.
        rewrite Qpower_1_r. reflexivity.
      * change (Z.of_nat (length (@nil Z))) with 0%Z.
        rewrite Qpower_0_r. ring.
    + simpl in Hn. rewrite (IH s1 stf rs n r H2 Hn), Hrn.
      destruct (V1.replenishment_period <? y)%Z.
      * simpl length. rewrite Qpower_of_nat_succ. ring.
      * reflexivity.
Qed.

(** The exposure a yearly row records: what the scenario started with
    less the losses of every year so far, those of a Sequential year
    counted twice. *)
Lemma v1_exposure_along_run (ys : list Z) :
  forall (st stf : V1.state) (rows : list V1.row) (n : nat) (r : V1.row),
    V1.run_years d i stress trigger_time ys st = Ok (stf, rows) ->
    nth_error rows n = Some r ->
    V1.Tranche_Exposure r ==
      V1.tranche_exposure st
      - Qsum (losses_upto (S n) rows)
      - Qsum (sequential_losses_upto (S n) rows).
Proof.
  induction ys as [|y ys IH]; intros st stf rows n r H Hn.
  - simpl in H. inversion H; subst. destruct n; discriminate.
  - apply v1_run_years_cons_inv in H as [s1 [r0 [rs [H1 [H2 ->]]]]].
    apply v1_step_facts in H1
      as [_ [_ [_ [_ [Hl [_ [_ [Hte [Hrow [_ [_ [_ [Hat _]]]]]]]]]]]]].
    assert (Hseq : amortisation_eqb (V1.Amortisation_Type r0) Sequential
                   = ((V1.replenishment_period <? y)
                      && (y =? trigger_time))%Z%bool).
    { rewrite Hat. destruct (V1.replenishment_period <? y)%Z;
        [destruct (y =? trigger_time)%Z|]; reflexivity. }
    unfold losses_upto, sequential_losses_upto in *.
    rewrite firstn_cons. simpl filter. rewrite Hseq.
    destruct n as [|n].
    + simpl in Hn. inversion Hn; subst r0.
      rewrite firstn_O, Hrow, Hte, <- Hl.
      destruct ((V1.replenishment_period <? y) && (y =? trigger_time))%Z%bool;
        simpl; ring.
    + simpl in Hn. rewrite (IH s1 stf rs n r H2 Hn), Hte, <- Hl.
      destruct ((V1.replenishment_period <? y) && (y =? trigger_time))%Z%bool;
        simpl; ring.
Qed.

Lemma v1_pnl_along_run (ys : list Z) :
  forall (st stf : V1.state) (rows : list V1.row) (n : nat) (r : V1.row),
    V1.run_years d i stress trigger_time ys st = Ok (stf, rows) ->
    nth_error rows n = Some r ->
    V1.PnL r == V1.pnl st + Qsum (annual_cashflows_upto (S n) rows).
Proof.
  induction ys as [|y ys IH]; intros st stf rows n r H Hn.
  - simpl in H. inversion H; subst. destruct n; discriminate.
  - apply v1_run_years_cons_inv in H as [s1 [r0 [rs [H1 [H2 ->]]]]].
    apply v1_step_facts in H1
      as [_ [_ [_ [_ [_ [_ [_ [_ [_ [_ [Hp [Hrow _]]]]]]]]]]]].
    unfold annual_cashflows_upto in *. rewrite firstn_cons.
    destruct n as [|n].
    + simpl in Hn. inversion Hn; subst r0.
      rewrite firstn_O, Hrow, Hp. simpl. ring.
    + simpl in Hn. rewrite (IH s1 stf rs n r H2 Hn), Hp. simpl. ring.
Qed.

End V1_run.

Lemma v1_years_nth (n : nat) :
  (n < 8)%nat -> nth_error V1.years n = Some (Z.of_nat n + 1)%Z.
Proof.
  intro Hn. do 8 (destruct n as [|n]; [reflexivity|]). lia.
Qed.

Lemma v1_amortised_years (n : nat) :
  (n < 8)%nat ->
  length (filter (fun y => (V1.replenishment_period <? y)%Z)
            (firstn (S n) V1.years)) = (S n - 3)%nat.
Proof.
  intro Hn. do 8 (destruct n as [|n]; [reflexivity|]). lia.
Qed.

Lemma v1_row_year (d : deal) (i : nat) (stress : Q) (trigger_time : Z)
    (stf : V1.state) (rows : list V1.row) (n : nat) (r : V1.row) :
  V1.run_years d i stress trigger_time V1.years (V1.init_state d)
    = Ok (stf, rows) ->
  nth_error rows n = Some r ->
  (n < 8)%nat /\ V1.Year r = (Z.of_nat n + 1)%Z.
Proof.
  intros H Hn.
  assert (Hlt : (n < 8)%nat).
  { assert (Hs : nth_error rows n <> None) by congruence.
    apply nth_error_Some in Hs.
    rewrite (v1_run_years_length _ _ _ _ _ _ _ _ H) in Hs. exact Hs. }
  split; [exact Hlt|].
  pose proof (v1_rows_years _ _ _ _ _ _ _ _ H) as Hm.
  assert (Hy : nth_error V1.years n = Some (V1.Year r)).
  { rewrite <- Hm. rewrite nth_error_map, Hn. reflexivity. }
  rewrite (v1_years_nth n Hlt) in Hy. congruence.
Qed.

(** In version 1.0 row n (from 0) is year n + 1; its regime is
    Replenishment up to year 3, Sequential in the trigger year and in no
    other, Pro-rata in every other year.  So a year that follows a
    Sequential year is Pro-rata again. *)
Theorem v1_regime_column (d : deal) (i : nat) (stress : Q)
    (trigger_time : Z) (rows : list V1.row) (n : nat) (r : V1.row) :
  V1.run_scenario d i stress trigger_time = Ok rows ->
  nth_error rows n = Some r ->
  V1.Year r = (Z.of_nat n + 1)%Z /\
  V1.Amortisation_Type r =
    (if (V1.Year r <=? V1.replenishment_period)%Z then Replenishment
     else if (V1.Year r =? trigger_time)%Z then Sequential else ProRata) /\
  forall (m : nat) (r' : V1.row),
    (n < m)%nat -> nth_error rows m = Some r' ->
    V1.Amortisation_Type r = Sequential ->
    V1.Amortisation_Type r' = ProRata.
Proof.
  intros H Hn. apply v1_run_scenario_Ok_inv in H as [stf H].
  destruct (v1_row_year _ _ _ _ _ _ _ _ H Hn) as [Hlt Hy].
  pose proof (v1_regime_along_run _ _ _ _ _ _ _ _ H) as Hreg.
  rewrite Forall_forall in Hreg.
  pose proof (Hreg r (nth_error_In _ _ Hn)) as Hr.
  split; [exact Hy|]. split.
  - rewrite Hr.
    destruct (V1.replenishment_period <? V1.Year r)%Z eqn:E1;
      destruct (V1.Year r <=? V1.replenishment_period)%Z eqn:E2;
      try reflexivity.
    + apply Z.ltb_lt in E1. apply Z.leb_le in E2. lia.
    + apply Z.ltb_ge in E1. apply Z.leb_gt in E2. lia.
  - intros m r' Hnm Hm Hseq.
    destruct (v1_row_year _ _ _ _ _ _ _ _ H Hm) as [_ Hy'].
    pose proof (Hreg r' (nth_error_In _ _ Hm)) as Hr'.
    rewrite Hr in Hseq. rewrite Hr'.
    destruct (V1.replenishment_period <? V1.Year r)%Z eqn:E1;
      [|discriminate Hseq].
    destruct (V1.Year r =? trigger_time)%Z eqn:E2; [|discriminate Hseq].
    apply Z.ltb_lt in E1. apply Z.eqb_eq in E2.
    assert (E3 : (V1.replenishment_period <? V1.Year r')%Z = true)
      by (apply Z.ltb_lt; lia).
    assert (E4 : (V1.Year r' =? trigger_time)%Z = false)
      by (apply Z.eqb_neq; lia).
    now rewrite E3, E4.
Qed.

Lemma example_deal_v1_runs (i : nat) (stress : Q) (trigger_time : Z) :
  exists rows,
    V1.run_scenario example_deal_v1 i stress trigger_time = Ok rows /\
    length rows = 8%nat.
Proof.
  destruct (v1_run_years_total example_deal_v1 i stress trigger_time
              V1.years) with (st := V1.init_state example_deal_v1)
    as [stf [rows H]].
  { apply Forall_forall. intros y Hy. apply v1_years_range in Hy.
    simpl. lia. }
  exists rows. split.
  - unfold V1.run_scenario. rewrite H, bind_Ok. reflexivity.
  - now rewrite (v1_run_years_length _ _ _ _ _ _ _ _ H).
Qed.

Lemma v1_regime_column_witness :
  exists rows r,
    V1.run_scenario example_deal_v1 2 2 6 = Ok rows /\
    nth_error rows 5 = Some r /\
    V1.Year r = 6%Z /\ V1.Amortisation_Type r = Sequential.
Proof.
  destruct (example_deal_v1_runs 2 2 6) as [rows [E L]].
  destruct (nth_error rows 5) as [r|] eqn:En.
  - exists rows, r. split; [exact E|]. split; [exact En|].
    destruct (v1_regime_column example_deal_v1 2 2 6 rows 5 r E En)
      as [Hy [Hr _]].
    split; [exact Hy|]. rewrite Hr, Hy. reflexivity.
  - apply nth_error_None in En. rewrite L in En. exfalso. lia.
Defined.

(** In version 1.0 row n records the notional scaled by
    (1 - amortisation_rate) once for each year past the third, whatever the
    stress multiplier and the trigger year, and an exposure that no
    principal payment ever reduces: the tranche size less the losses of
    the years so far, those of the Sequential year counted twice. *)
Theorem v1_notional_and_exposure (d : deal) (i : nat) (stress : Q)
    (trigger_time : Z) (rows : list V1.row) (n : nat) (r : V1.row) :
  V1.run_scenario d i stress trigger_time = Ok rows ->
  nth_error rows n = Some r ->
  V1.Remaining_Notional r ==
    notional_amount d * (1 - amortisation_rate d) ^ Z.of_nat (S n - 3) /\
  V1.Tranche_Exposure r ==
    tranche_size d
    - Qsum (losses_upto (S n) rows)
    - Qsum (sequential_losses_upto (S n) rows).
Proof.
  intros H Hn. apply v1_run_scenario_Ok_inv in H as [stf H].
  destruct (v1_row_year _ _ _ _ _ _ _ _ H Hn) as [Hlt _].
  split.
  - rewrite (v1_notional_along_run _ _ _ _ _ _ _ _ _ _ H Hn).
    rewrite (v1_amortised_years n Hlt). reflexivity.
  - exact (v1_exposure_along_run _ _ _ _ _ _ _ _ _ _ H Hn).
Qed.

Lemma v1_notional_and_exposure_witness :
  exists rows r,
    V1.run_scenario example_deal_v1 0 1 4 = Ok rows /\
    nth_error rows 4 = Some r /\
    V1.Remaining_Notional r == 500000000 * (1 - 0.33) ^ 2.
Proof.
  destruct (example_deal_v1_runs 0 1 4) as [rows [E L]].
  destruct (nth_error rows 4) as [r|] eqn:En.
  - exists rows, r. split; [exact E|]. split; [exact En|].
    exact (proj1 (v1_notional_and_exposure example_deal_v1 0 1 4 rows 4 r
                    E En)).
  - apply nth_error_None in En. rewrite L in En. exfalso. lia.
Defined.

(** The PnL column of version 1.0 is the running sum of the annual cash
    flows on top of the price paid. *)
Theorem v1_pnl_is_running_sum (d : deal) (i : nat) (stress : Q)
    (trigger_time : Z) (rows : list V1.row) (n : nat) (r : V1.row) :
  V1.run_scenario d i stress trigger_time = Ok rows ->
  nth_error rows n = Some r ->
  V1.PnL r == - cln_price d + Qsum (annual_cashflows_upto (S n) rows).
Proof.
  intros H Hn. apply v1_run_scenario_Ok_inv in H as [stf H].
  exact (v1_pnl_along_run _ _ _ _ _ _ _ _ _ _ H Hn).
Qed.

Lemma v1_pnl_is_running_sum_witness :
  exists rows r,
    V1.run_scenario example_deal_v1 0 1 4 = Ok rows /\
    nth_error rows 7 = Some r /\
    V1.PnL r
      == - cln_price example_deal_v1 + Qsum (annual_cashflows_upto 8 rows).
Proof.
  destruct (example_deal_v1_runs 0 1 4) as [rows [E L]].
  destruct (nth_error rows 7) as [r|] eqn:En.
  - exists rows, r. split; [exact E|]. split; [exact En|].
    exact (v1_pnl_is_running_sum example_deal_v1 0 1 4 rows 7 r E En).
  - apply nth_error_None in En. rewrite L in En. exfalso. lia.
Defined.

(** ** The discount factor of version 1.0 *)

Lemma growth_factors_spec (rates : list Q) (ys : list Z) :
  forall fs : list Q,
    V1.growth_factors rates ys = Ok fs ->
    Forall2 (fun y f => exists x, py_index rates (y - 1) = Ok x /\ f = 1 + x)
      ys fs.
Proof.
  induction ys as [|y ys IH]; intros fs H.
  - simpl in H. inversion H. constructor.
  - simpl in H. apply bind_Ok_inv in H as [x [Hx H]].
    apply bind_Ok_inv in H as [fs' [Hfs H]].
    inversion H; subst. constructor; [|now apply IH].
    exists x. split; [exact Hx | reflexivity].
Qed.

Lemma py_index_In {A : Type} (l : list A) (k : Z) (x : A) :
  py_index l k = Ok x -> In x l.
Proof.
  unfold py_index; cbv zeta.
  destruct (_ || _)%bool; [discriminate|].
  destruct (nth_error l _) as [a|] eqn:E; [|discriminate].
  intro H. inversion H; subst. eapply nth_error_In; exact E.
Qed.

Lemma fold_mult_ones (fs : list Q) :
  Forall (fun f => f == 1) fs ->
  forall acc : Q, fold_left Qmult fs acc == acc.
Proof.
  induction 1 as [|f fs Hf _ IH]; intro acc; [reflexivity|].
  simpl. rewrite IH, Hf. ring.
Qed.

Lemma fold_mult_zero_acc (fs : list Q) :
  forall acc : Q, acc == 0 -> fold_left Qmult fs acc == 0.
Proof.
  induction fs as [|f fs IH]; intros acc Ha; [exact Ha|].
  simpl. apply IH. rewrite Ha. ring.
Qed.

Lemma fold_mult_zero (fs : list Q) :
  Exists (fun f => f == 0) fs ->
  forall acc : Q, fold_left Qmult fs acc == 0.
Proof.
  induction 1 as [f fs Hf | f fs _ IH]; intro acc; simpl.
  - apply fold_mult_zero_acc. rewrite Hf. ring.
  - apply IH.
Qed.

Section V1_discount.

Variable d : deal.
Variable i : nat.
Variable stress : Q.
Variable trigger_time : Z.

Lemma v1_zero_rates_along_run (ys : list Z) :
  Forall (fun x => x == 0) (risk_free_rates d) ->
  forall (st stf : V1.state) (rows : list V1.row),
    V1.run_years d i stress trigger_time ys st = Ok (stf, rows) ->
    (exists x, V1.discounted_pnl st = Some x /\ x == V1.pnl st) ->
    Forall (fun r =>
              exists x, V1.Discounted_PnL r = Some x /\ x == V1.PnL r) rows.
Proof.
  intro Hz. induction ys as [|y ys IH]; intros st stf rows H Hinv.
  - simpl in H. inversion H. constructor.
  - apply v1_run_years_cons_inv in H as [s1 [r0 [rs [H1 [H2 ->]]]]].
    apply v1_step_facts in H1
      as [_ [_ [_ [_ [_ [_ [_ [_ [_ [_ [Hp [Hrow
            [_ [fs [Hfs [Hd Hdrow]]]]]]]]]]]]]]]].
    destruct Hinv as [x [Hx Hxp]].
    assert (Hones : Forall (fun f => f == 1) fs).
    { apply growth_factors_spec in Hfs.
      clear - Hfs Hz. induction Hfs as [|y' f ys' fs' [x [Hx ->]] _ IH'];
        constructor; [|exact IH'].
      apply py_index_In in Hx. rewrite Forall_forall in Hz.
      rewrite (Hz x Hx). ring. }
    assert (Hprod : V1.np_prod fs == 1).
    { unfold V1.np_prod. now apply fold_mult_ones. }
    assert (Hnz : Qeq_bool (V1.np_prod fs) 0 = false).
    { destruct (Qeq_bool (V1.np_prod fs) 0) eqn:E; [|reflexivity].
      apply Qeq_bool_iff in E. rewrite Hprod in E. discriminate E. }
    assert (Hinv1 : exists x1, V1.discounted_pnl s1 = Some x1 /\
                               x1 == V1.pnl s1).
    { rewrite Hd, Hx. unfold V1.np_div. rewrite Hnz. simpl.
      eexists. split; [reflexivity|].
      rewrite Hp, Hxp, Hprod. field. }
    constructor.
    + rewrite Hdrow, Hrow. exact Hinv1.
    + eapply IH; eassumption.
Qed.

(** From the year whose rate is -1 on, the discount factor holds a zero
    and the division no longer gives a number. *)
Lemma v1_total_loss_along_run (k : nat) (rate : Q) (ys : list Z) :
  nth_error (risk_free_rates d) k = Some rate ->
  rate == -1 ->
  forall (st stf : V1.state) (rows : list V1.row),
    V1.run_years d i stress trigger_time ys st = Ok (stf, rows) ->
    Forall (fun r =>
              (Z.of_nat k < V1.Year r)%Z -> V1.Discounted_PnL r = None) rows.
Proof.
  intros Hk Hrate. induction ys as [|y ys IH]; intros st stf rows H.
  - simpl in H. inversion H. constructor.
  - apply v1_run_years_cons_inv in H as [s1 [r0 [rs [H1 [H2 ->]]]]].
    constructor; [|eapply IH; eassumption].
    apply v1_step_facts in H1
      as [Hy [_ [_ [_ [_ [_ [_ [_ [_ [_ [_ [_
            [_ [fs [Hfs [Hd Hdrow]]]]]]]]]]]]]]]].
    intro Hlt. rewrite Hy in Hlt. rewrite Hdrow, Hd.
    assert (Hex : Exists (fun f => f == 0) fs).
    { apply growth_factors_spec in Hfs.
      assert (Hin : In (Z.of_nat k + 1)%Z (py_range 1 (y + 1)))
        by (apply In_py_range; lia).
      clear - Hfs Hin Hk Hrate.
      induction Hfs as [|y' f ys' fs' [x [Hx ->]] _ IH'];
        [inversion Hin|].
      destruct Hin as [-> | Hin].
      - left. replace (Z.of_nat k + 1 - 1)%Z with (Z.of_nat k) in Hx by lia.
        apply py_index_nat_Ok in Hx.
        assert (x = rate) by congruence. subst x. rewrite Hrate. ring.
      - right. now apply IH'. }
    assert (Hz : Qeq_bool (V1.np_prod fs) 0 = true).
    { apply Qeq_bool_iff. unfold V1.np_prod. now apply fold_mult_zero. }
    unfold V1.np_div. rewrite Hz.
    destruct (V1.discounted_pnl st); reflexivity.
Qed.

End V1_discount.

(** On a curve of zero rates every discount factor is 1 and the
    discounted PnL of version 1.0 is a number equal to the plain PnL. *)
Theorem v1_zero_rates_discounted_is_pnl (d : deal) (i : nat) (stress : Q)
    (trigger_time : Z) (rows : list V1.row) :
  Forall (fun x => x == 0) (risk_free_rates d) ->
  V1.run_scenario d i stress trigger_time = Ok rows ->
  Forall (fun r => exists x, V1.Discounted_PnL r = Some x /\ x == V1.PnL r)
    rows.
Proof.
  intros Hz H. apply v1_run_scenario_Ok_inv in H as [stf H].
  eapply v1_zero_rates_along_run; [exact Hz | exact H |].
  eexists. split; [reflexivity|]. reflexivity.
Qed.

Lemma v1_zero_rates_discounted_is_pnl_witness :
  exists rows,
    V1.run_scenario v1_zero_rate_deal 0 1 4 = Ok rows /\
    Forall (fun r => exists x, V1.Discounted_PnL r = Some x /\ x == V1.PnL r)
      rows.
Proof.
  destruct (v1_run_years_total v1_zero_rate_deal 0 1 4 V1.years)
    with (st := V1.init_state v1_zero_rate_deal) as [stf [rows H]].
  { apply Forall_forall. intros y Hy. apply v1_years_range in Hy.
    simpl. lia. }
  assert (E : V1.run_scenario v1_zero_rate_deal 0 1 4 = Ok rows).
  { unfold V1.run_scenario. rewrite H, bind_Ok. reflexivity. }
  exists rows. split; [exact E|].
  apply (v1_zero_rates_discounted_is_pnl v1_zero_rate_deal 0 1 4 rows);
    [|exact E].
  repeat constructor.
Defined.

(** Version 1.0 divides by the discount factor without guarding it: when
    the rate of year k + 1 is -1 (a factor of zero) the scenario still
    returns, but from that year on no row has a finite discounted PnL. *)
Theorem v1_total_loss_rate_blanks_discounted_pnl (d : deal) (i : nat)
    (stress : Q) (trigger_time : Z) (rows : list V1.row) (k : nat)
    (rate : Q) :
  nth_error (risk_free_rates d) k = Some rate ->
  rate == -1 ->
  V1.run_scenario d i stress trigger_time = Ok rows ->
  forall (n : nat) (r : V1.row),
    (k <= n)%nat -> nth_error rows n = Some r ->
    V1.Discounted_PnL r = None.
Proof.
  intros Hk Hrate H n r Hkn Hn.
  apply v1_run_scenario_Ok_inv in H as [stf H].
  destruct (v1_row_year _ _ _ _ _ _ _ _ H Hn) as [_ Hy].
  pose proof (v1_total_loss_along_run _ _ _ _ _ _ _ Hk Hrate _ _ _ H) as Hall.
  rewrite Forall_forall in Hall.
  apply (Hall r (nth_error_In _ _ Hn)). lia.
Qed.

Lemma v1_total_loss_rate_witness :
  exists rows r,
    V1.run_scenario v1_total_loss_rate_deal 0 1 4 = Ok rows /\
    nth_error rows 6 = Some r /\
    V1.Discounted_PnL r = None.
Proof.
  destruct (v1_run_years_total v1_total_loss_rate_deal 0 1 4 V1.years)
    with (st := V1.init_state v1_total_loss_rate_deal) as [stf [rows H]].
  { apply Forall_forall. intros y Hy. apply v1_years_range in Hy.
    simpl. lia. }
  assert (E : V1.run_scenario v1_total_loss_rate_deal 0 1 4 = Ok rows).
  { unfold V1.run_scenario. rewrite H, bind_Ok. reflexivity. }
  assert (L : length rows = 8%nat)
    by now rewrite (v1_run_years_length _ _ _ _ _ _ _ _ H).
  destruct (nth_error rows 6) as [r|] eqn:En.
  - exists rows, r. split; [exact E|]. split; [exact En|].
    apply (v1_total_loss_rate_blanks_discounted_pnl v1_total_loss_rate_deal
             0 1 4 rows 2 (-1) eq_refl (Qeq_refl _) E 6 r); [lia | exact En].
  - apply nth_error_None in En. rewrite L in En. exfalso. lia.
Defined.

(** * The buffer behind the plot of version 2.0 *)

Lemma Qeq_bool_congr_l (a b c : Q) : a == b -> Qeq_bool a c = Qeq_bool b c.
Proof.
  intro H.
  destruct (Qeq_bool a c) eqn:E1; destruct (Qeq_bool b c) eqn:E2;
    try reflexivity; exfalso.
  - apply Qeq_bool_iff in E1.
    assert (Hb : b == c) by (rewrite <- H; exact E1).
    apply Qeq_bool_iff in Hb. congruence.
  - apply Qeq_bool_iff in E2.
    assert (Ha : a == c) by (rewrite H; exact E2).
    apply Qeq_bool_iff in Ha. congruence.
Qed.

Lemma Qeq_bool_congr_r (a b c : Q) : a == b -> Qeq_bool c a = Qeq_bool c b.
Proof.
  intro H.
  destruct (Qeq_bool c a) eqn:E1; destruct (Qeq_bool c b) eqn:E2;
    try reflexivity; exfalso.
  - apply Qeq_bool_iff in E1.
    assert (Hb : c == b) by (rewrite <- H; exact E1).
    apply Qeq_bool_iff in Hb. congruence.
  - apply Qeq_bool_iff in E2.
    assert (Ha : c == a) by (rewrite H; exact E2).
    apply Qeq_bool_iff in Ha. congruence.
Qed.

Lemma Qeq_bool_same (a : Q) : Qeq_bool a a = true.
Proof. apply Qeq_bool_iff. reflexivity. Qed.

Lemma dict_get_congr (m : Plot.dict) (k k' : Q) :
  k == k' -> Plot.dict_get k m = Plot.dict_get k' m.
Proof.
  intro H. induction m as [|[k0 v0] m IH]; [reflexivity|].
  simpl. rewrite (Qeq_bool_congr_r k k' k0 H), IH. reflexivity.
Qed.

Lemma dict_get_set (m : Plot.dict) :
  forall (k k2 : Q) (v : list Q),
    Plot.dict_get k (Plot.dict_set k2 v m) =
      if Qeq_bool k2 k then Some v else Plot.dict_get k m.
Proof.
  induction m as [|[k' v'] m IH]; intros k k2 v.
  - reflexivity.
  - simpl. destruct (Qeq_bool k' k2) eqn:E.
    + simpl. apply Qeq_bool_iff in E.
      rewrite (Qeq_bool_congr_l k' k2 k E).
      destruct (Qeq_bool k2 k); reflexivity.
    + simpl. rewrite IH.
      destruct (Qeq_bool k' k) eqn:E1; [|reflexivity].
      destruct (Qeq_bool k2 k) eqn:E2; [|reflexivity].
      exfalso. apply Qeq_bool_iff in E1. apply Qeq_bool_iff in E2.
      assert (Hk : k' == k2) by (rewrite E1, E2; reflexivity).
      apply Qeq_bool_iff in Hk. congruence.
Qed.

Lemma init_pnl_over_time_get (stress_scenarios : list Q) :
  forall (m0 : Plot.dict) (k : Q),
    Plot.dict_get k
      (fold_left (fun m stress => Plot.dict_set stress Plot.zeros m)
         stress_scenarios m0) =
      if existsb (fun s => Qeq_bool s k) stress_scenarios
      then Some Plot.zeros else Plot.dict_get k m0.
Proof.
  induction stress_scenarios as [|s l IH]; intros m0 k; [reflexivity|].
  simpl. rewrite IH, dict_get_set.
  destruct (Qeq_bool s k); destruct (existsb (fun s0 => Qeq_bool s0 k) l);
    reflexivity.
Qed.

Lemma py_setitem_nat (l : list Q) (k : nat) (x : Q) :
  (k < length l)%nat ->
  Plot.py_setitem l (Z.of_nat k) x
    = Some (firstn k l ++ x :: skipn (S k) l).
Proof.
  intro H. unfold Plot.py_setitem; cbv zeta.
  assert (E0 : (Z.of_nat k <? 0)%Z = false) by (apply Z.ltb_ge; lia).
  assert (E1 : (Z.of_nat (length l) <=? Z.of_nat k)%Z = false)
    by (apply Z.leb_gt; lia).
  rewrite E0; cbv iota; rewrite E0, E1. simpl orb. cbv iota.
  now rewrite Nat2Z.id.
Qed.

Lemma quarter_index_nth (n : nat) :
  Plot.quarter_index (Z.of_nat (n / 4) + 1) (Z.of_nat (n mod 4) + 1)
    = Z.of_nat n.
Proof.
  unfold Plot.quarter_index, V2.quarters_per_year.
  pose proof (Nat.div_mod_eq n 4). lia.
Qed.

Lemma store_rows_app (a b : list V2.period) :
  forall m : Plot.dict,
    Plot.store_rows m (a ++ b) =
      match Plot.store_rows m a with
      | Some m' => Plot.store_rows m' b
      | None => None
      end.
Proof.
  induction a as [|r a IH]; intro m; [reflexivity|].
  simpl. destruct (Plot.store_row m r); [apply IH | reflexivity].
Qed.

(** The rows of a scenario whose trigger year is not 4 leave the buffer
    as it is. *)
Lemma store_rows_other_trigger (rows : list V2.period) (m : Plot.dict) :
  Forall (fun r => V2.Trigger_Time r <> Plot.base_trigger_time) rows ->
  Plot.store_rows m rows = Some m.
Proof.
  induction 1 as [|r rows Hr _ IH]; [reflexivity|].
  simpl. unfold Plot.store_row.
  apply Z.eqb_neq in Hr. rewrite Hr. exact IH.
Qed.

(** The rows of a scenario whose trigger year is 4, from quarter k on,
    overwrite the series of their multiplier position by position. *)
Lemma store_rows_base_trigger (s : Q) (rows : list V2.period) :
  forall (k : nat) (m : Plot.dict) (series : list Q),
    map (fun r => (V2.Year r, V2.Quarter r)) rows = skipn k V2.periods ->
    Forall (fun r => V2.Stress_Multiplier r = s /\
                     V2.Trigger_Time r = Plot.base_trigger_time) rows ->
    Plot.dict_get s m = Some series ->
    length series = 32%nat ->
    exists m',
      Plot.store_rows m rows = Some m' /\
      forall k' : Q,
        Plot.dict_get k' m' =
          if Qeq_bool s k'
          then Some (firstn k series ++ map V2.PnL rows
                     ++ skipn (k + length rows) series)
          else Plot.dict_get k' m.
Proof.
  induction rows as [|r rows IH]; intros k m series Hpos Hall Hget Hlen.
  - exists m. split; [reflexivity|].
    intro k'. destruct (Qeq_bool s k') eqn:E; [|reflexivity].
    apply Qeq_bool_iff in E. rewrite <- (dict_get_congr m s k' E), Hget.
    simpl. rewrite Nat.add_0_r, firstn_skipn. reflexivity.
  - apply Forall_cons_iff in Hall as [[Hs Ht] Hall'].
    assert (Hk : (k < 32)%nat).
    { destruct (Nat.lt_ge_cases k 32) as [Hlt | Hge]; [exact Hlt|].
      rewrite skipn_all2 in Hpos by (change (length V2.periods) with 32%nat; lia).
      discriminate Hpos. }
    assert (Hnth : nth_error V2.periods k = Some (V2.Year r, V2.Quarter r)).
    { rewrite <- (Nat.add_0_r k), <- nth_error_skipn, <- Hpos.
      reflexivity. }
    rewrite (periods_nth k Hk) in Hnth.
    assert (Hy : V2.Year r = (Z.of_nat (k / 4) + 1)%Z) by congruence.
    assert (Hq : V2.Quarter r = (Z.of_nat (k mod 4) + 1)%Z) by congruence.
    assert (Hpos' : map (fun r => (V2.Year r, V2.Quarter r)) rows
                    = skipn (S k) V2.periods).
    { replace (S k) with (1 + k)%nat by lia.
      rewrite <- skipn_skipn, <- Hpos. reflexivity. }
    set (series1 := firstn k series ++ V2.PnL r :: skipn (S k) series).
    assert (Hlen1 : length series1 = 32%nat).
    { unfold series1. rewrite length_app, length_firstn.
      change (length (V2.PnL r :: skipn (S k) series))
        with (S (length (skipn (S k) series))).
      rewrite length_skipn. lia. }
    assert (Hrow : Plot.store_row m r
                   = Some (Plot.dict_set s series1 m)).
    { unfold Plot.store_row. rewrite Ht, Z.eqb_refl, Hs, Hget, Hy, Hq.
      rewrite quarter_index_nth, py_setitem_nat by lia. reflexivity. }
    destruct (IH (S k) (Plot.dict_set s series1 m) series1 Hpos' Hall')
      as [m' [Hm' Hget']]; [|exact Hlen1|].
    { rewrite dict_get_set, Qeq_bool_same. reflexivity. }
    exists m'. split; [simpl; rewrite Hrow; exact Hm'|].
    intro k'. rewrite Hget', dict_get_set.
    destruct (Qeq_bool s k'); [|reflexivity].
    f_equal. unfold series1.
    assert (Hf : length (firstn k series) = k)
      by (rewrite length_firstn; lia).
    rewrite firstn_app, Hf.
    rewrite firstn_all2 by lia.
    replace (S k - k)%nat with 1%nat by lia.
    rewrite skipn_app, Hf.
    rewrite (skipn_all2 (firstn k series)) by lia.
    replace (S k + length rows - k)%nat with (S (length rows)) by lia.
    change (firstn 1 (V2.PnL r :: skipn (S k) series)) with [V2.PnL r].
    change (skipn (S (length rows)) (V2.PnL r :: skipn (S k) series))
      with (skipn (length rows) (skipn (S k) series)).
    rewrite skipn_skipn.
    change (length (r :: rows)) with (S (length rows)).
    replace (length rows + S k)%nat with (k + S (length rows))%nat by lia.
    change (map V2.PnL (r :: rows)) with (V2.PnL r :: map V2.PnL rows).
    rewrite <- app_assoc. reflexivity.
Qed.

Lemma plotted_series_untouched (k : Q)
    (scen : list (Q * Z * list V2.period)) (cur : list Q) :
  Forall (fun e => snd (fst e) <> Plot.base_trigger_time \/
                   ~ fst (fst e) == k) scen ->
  plotted_series k scen cur = cur.
Proof.
  induction 1 as [|[[s t] tb] scen He _ IH]; [reflexivity|].
  simpl in He. simpl.
  assert (E : ((t =? Plot.base_trigger_time)%Z && Qeq_bool s k)%bool = false).
  { destruct He as [He | He].
    - apply Z.eqb_neq in He. now rewrite He.
    - destruct (Qeq_bool s k) eqn:Es; [|apply andb_false_r].
      apply Qeq_bool_iff in Es. contradiction. }
  rewrite E. exact IH.
Qed.

(** Writing the tables of a list of scenarios into the buffer. *)
Lemma store_scenarios (scen : list (Q * Z * list V2.period)) :
  forall m : Plot.dict,
    Forall (fun e =>
              map (fun r => (V2.Year r, V2.Quarter r)) (snd e) = V2.periods /\
              Forall (fun r => V2.Stress_Multiplier r = fst (fst e) /\
                               V2.Trigger_Time r = snd (fst e)) (snd e))
      scen ->
    Forall (fun e => exists series,
                Plot.dict_get (fst (fst e)) m = Some series) scen ->
    (forall k series,
        Plot.dict_get k m = Some series -> length series = 32%nat) ->
    exists m',
      Plot.store_rows m (concat (map snd scen)) = Some m' /\
      forall k : Q,
        Plot.dict_get k m'
          = option_map (plotted_series k scen) (Plot.dict_get k m).
Proof.
  induction scen as [|[[s t] tb] scen IH]; intros m Hok Hpres Hlen.
  - exists m. split; [reflexivity|].
    intro k. simpl. now destruct (Plot.dict_get k m).
  - apply Forall_cons_iff in Hok as [[Hpos Hlab] Hok].
    apply Forall_cons_iff in Hpres as [[series Hget] Hpres].
    simpl in Hpos, Hlab, Hget.
    assert (Htb : length tb = 32%nat).
    { rewrite <- (length_map (fun r => (V2.Year r, V2.Quarter r))), Hpos.
      reflexivity. }
    change (concat (map snd ((s, t, tb) :: scen)))
      with (tb ++ concat (map snd scen)).
    rewrite store_rows_app.
    destruct (Z.eq_dec t Plot.base_trigger_time) as [-> | Ht].
    + destruct (store_rows_base_trigger s tb 0 m series)
        as [m1 [H1 G1]]; [exact Hpos | exact Hlab | exact Hget | |].
      { exact (Hlen _ _ Hget). }
      assert (Hnew : firstn 0 series ++ map V2.PnL tb
                     ++ skipn (0 + length tb) series = map V2.PnL tb).
      { rewrite skipn_all2 by (rewrite (Hlen _ _ Hget); simpl; lia).
        simpl. apply app_nil_r. }
      rewrite H1.
      destruct (IH m1 Hok) as [m' [H2 G2]].
      * apply Forall_forall. intros e He.
        rewrite Forall_forall in Hpres. destruct (Hpres e He) as [ser Hser].
        rewrite G1. destruct (Qeq_bool s (fst (fst e))); eexists;
          [reflexivity | exact Hser].
      * intros k ser Hk. rewrite G1 in Hk.
        destruct (Qeq_bool s k).
        -- rewrite Hnew in Hk. inversion Hk; subst ser.
           rewrite length_map. exact Htb.
        -- exact (Hlen _ _ Hk).
      * exists m'. split; [exact H2|].
        intro k. rewrite G2, G1. cbn [plotted_series].
        rewrite ?Z.eqb_refl. cbn [andb].
        destruct (Qeq_bool s k) eqn:E.
        -- apply Qeq_bool_iff in E.
           rewrite <- (dict_get_congr m s k E), Hget, Hnew. reflexivity.
        -- reflexivity.
    + rewrite store_rows_other_trigger.
      * destruct (IH m Hok Hpres Hlen) as [m' [H2 G2]].
        exists m'. split; [exact H2|].
        intro k. rewrite G2. simpl plotted_series.
        apply Z.eqb_neq in Ht. now rewrite Ht.
      * eapply Forall_impl; [|exact Hlab].
        simpl. intros r [_ Hr]. congruence.
Qed.

Lemma skipn_nth_error_cons {A : Type} (l : list A) :
  forall (n : nat) (x : A),
    nth_error l n = Some x -> skipn n l = x :: skipn (S n) l.
Proof.
  induction l as [|a l IH]; intros n x H.
  - destruct n; discriminate.
  - destruct n as [|n].
    + simpl in H. inversion H. reflexivity.
    + simpl in H. simpl. exact (IH n x H).
Qed.

(** The tables of a call, paired with the multiplier and the trigger year
    each was run under. *)
Lemma scenarios_plotted (d : deal) (trigger_timings : list Z)
    (stress_scenarios : list Q) :
  forall (i : nat) (rows : list V2.period),
    V2.scenarios d trigger_timings i stress_scenarios = Ok rows ->
    exists tables,
      rows = concat tables /\
      length tables = length stress_scenarios /\
      map snd (combine (combine stress_scenarios (skipn i trigger_timings))
                 tables) = tables /\
      Forall (fun e =>
                map (fun r => (V2.Year r, V2.Quarter r)) (snd e)
                  = V2.periods /\
                Forall (fun r => V2.Stress_Multiplier r = fst (fst e) /\
                                 V2.Trigger_Time r = snd (fst e)) (snd e))
        (combine (combine stress_scenarios (skipn i trigger_timings))
           tables).
Proof.
  induction stress_scenarios as [|s rest IH]; intros i rows H.
  - simpl in H. inversion H; subst. exists []. repeat split. constructor.
  - apply scenarios_cons_inv in H as [t [table [rows' [Ht [H1 [H2 ->]]]]]].
    destruct (IH _ _ H2) as [tables [-> [Hlen [Hsnd Hok]]]].
    exists (table :: tables).
    rewrite (skipn_nth_error_cons _ _ _ Ht).
    change (combine (combine (s :: rest) (t :: skipn (S i) trigger_timings))
              (table :: tables))
      with ((s, t, table)
            :: combine (combine rest (skipn (S i) trigger_timings)) tables).
    split; [reflexivity|]. split; [simpl; now rewrite Hlen|].
    split; [cbn [map snd]; now rewrite Hsnd|].
    constructor; [|exact Hok].
    simpl. apply run_scenario_Ok_inv in H1 as [stf H1].
    destruct (run_periods_labels _ _ _ _ _ _ _ _ H1) as [Hm Hf].
    split; [exact Hm|].
    eapply Forall_impl; [|exact Hf]. simpl. intros r [_ [A B]].
    split; assumption.
Qed.

(** The chart data of a call that returns.  The buffer holds a series for
    each multiplier of [stress_scenarios] and no other: the PnL column of
    the last scenario run with that multiplier and trigger year 4, and 32
    zeros when no scenario with that multiplier has trigger year 4, for
    which the chart then shows a flat line at zero. *)
Theorem plot_buffer_contents (d : deal) (stress_scenarios : list Q)
    (trigger_timings : list Z) (rows : list V2.period) :
  V2.srt_stress_analysis d stress_scenarios trigger_timings = Ok rows ->
  exists tables m,
    rows = concat tables /\
    length tables = length stress_scenarios /\
    Plot.pnl_over_time d stress_scenarios trigger_timings = Ok (Some m) /\
    (forall k : Q,
        Plot.dict_get k m =
          if existsb (fun s => Qeq_bool s k) stress_scenarios
          then Some (plotted_series k
                       (combine (combine stress_scenarios trigger_timings)
                          tables) Plot.zeros)
          else None) /\
    (forall k : Q,
        existsb (fun s => Qeq_bool s k) stress_scenarios = true ->
        Forall (fun st => snd st <> Plot.base_trigger_time \/ ~ fst st == k)
          (combine stress_scenarios trigger_timings) ->
        Plot.dict_get k m = Some (repeat 0 32)).
Proof.
  intro H. pose proof H as H0. unfold V2.srt_stress_analysis in H0.
  destruct (scenarios_plotted _ _ _ _ _ H0)
    as [tables [Hrows [Hlen [Hsnd Hok]]]].
  change (skipn 0 trigger_timings) with trigger_timings in Hsnd, Hok.
  set (scen := combine (combine stress_scenarios trigger_timings) tables)
    in *.
  assert (Hinit : forall k,
             Plot.dict_get k (Plot.init_pnl_over_time stress_scenarios) =
               if existsb (fun s => Qeq_bool s k) stress_scenarios
               then Some Plot.zeros else None).
  { intro k. unfold Plot.init_pnl_over_time.
    now rewrite init_pnl_over_time_get. }
  destruct (store_scenarios scen (Plot.init_pnl_over_time stress_scenarios)
              Hok) as [m [Hm Hget]].
  { apply Forall_forall. intros [[s t] tb] He. simpl.
    apply in_combine_l in He. apply in_combine_l in He.
    exists Plot.zeros. rewrite Hinit.
    assert (Hex : existsb (fun s0 => Qeq_bool s0 s) stress_scenarios = true).
    { apply existsb_exists. exists s. split; [exact He|].
      apply Qeq_bool_same. }
    now rewrite Hex. }
  { intros k series Hk. rewrite Hinit in Hk.
    destruct (existsb _ stress_scenarios); [|discriminate].
    inversion Hk. reflexivity. }
  rewrite Hsnd, <- Hrows in Hm.
  assert (Hall : forall k : Q,
             Plot.dict_get k m =
               if existsb (fun s => Qeq_bool s k) stress_scenarios
               then Some (plotted_series k scen Plot.zeros) else None).
  { intro k. rewrite Hget, Hinit.
    now destruct (existsb _ stress_scenarios). }
  exists tables, m. split; [exact Hrows|]. split; [exact Hlen|].
  split; [|split].
  - unfold Plot.pnl_over_time. rewrite H, bind_Ok, Hm. reflexivity.
  - exact Hall.
  - intros k Hex Hno. rewrite Hall, Hex. f_equal.
    apply plotted_series_untouched.
    apply Forall_forall. intros [[s t] tb] He. simpl.
    apply in_combine_l in He.
    rewrite Forall_forall in Hno. exact (Hno (s, t) He).
Qed.

Lemma plot_buffer_contents_witness :
  exists rows m,
    V2.srt_stress_analysis small_deal [1; 2] [5; 4]%Z = Ok rows /\
    Plot.pnl_over_time small_deal [1; 2] [5; 4]%Z = Ok (Some m) /\
    Plot.dict_get 1 m = Some (repeat 0 32).
Proof.
  destruct (scenarios_total small_deal [5; 4]%Z [1; 2]) with (i := 0%nat)
    as [rows [E _]].
  - discriminate.
  - intro H. vm_compute in H. discriminate H.
  - intro H. vm_compute in H. discriminate H.
  - simpl. lia.
  - destruct (plot_buffer_contents small_deal [1; 2] [5; 4]%Z rows E)
      as [tables [m [_ [_ [Hm [_ Hzero]]]]]].
    exists rows, m. split; [exact E|]. split; [exact Hm|].
    apply Hzero; [reflexivity|].
    constructor; [left; discriminate|].
    constructor; [right; intro H; vm_compute in H; discriminate H|].
    constructor.
Defined.

(** * The latch of version 2.0 at work *)

Lemma v2_sequential_is_sticky_witness :
  exists rows r r',
    V2.run_scenario example_deal_v2 1 1.5 5 = Ok rows /\
    nth_error rows 16 = Some r /\
    nth_error rows 31 = Some r' /\
    V2.Amortisation_Type r = Sequential /\
    V2.Amortisation_Type r' = Sequential.
Proof.
  destruct (example_deal_v2_runs 1 1.5 5) as [rows [E L]].
  destruct (nth_error rows 16) as [r|] eqn:En;
    [|apply nth_error_None in En; rewrite L in En; exfalso; lia].
  destruct (nth_error rows 31) as [r'|] eqn:Em;
    [|apply nth_error_None in Em; rewrite L in Em; exfalso; lia].
  assert (Hr : V2.Amortisation_Type r = Sequential).
  { pose proof E as E'. apply run_scenario_Ok_inv in E' as [stf E'].
    pose proof (regimes_of_run_periods _ _ _ _ _ _ _ _ E') as Hreg.
    assert (Hn : nth_error (regimes_v2 rows) 16
                 = Some (V2.Amortisation_Type r)).
    { unfold regimes_v2. rewrite nth_error_map, En. reflexivity. }
    rewrite Hreg in Hn.
    change (V2.sequential_mode (V2.init_state example_deal_v2))
      with false in Hn.
    rewrite (regime_trace_periods 5 16) in Hn by lia.
    injection Hn as Hn. rewrite <- Hn. reflexivity. }
  exists rows, r, r'. split; [exact E|]. split; [exact En|].
  split; [exact Em|]. split; [exact Hr|].
  apply (v2_sequential_is_sticky example_deal_v2 1 1.5 5 rows 16 31 r r' E);
    [lia | exact En | exact Hr | exact Em].
Defined.
